(* ===================================================================== *)
(* Working with Foreign Functions: a model of the notebook's workflow    *)
(*                                                                       *)
(* The notebook loads 32 secret bytes from "data.txt" into a ctypes      *)
(* buffer through libc's fopen/fread/fclose, logs the buffer's address,  *)
(* and wipes the buffer with memset; a last cell fills a separate cffi   *)
(* buffer with libsodium's randombytes.                                  *)
(*                                                                       *)
(* Each code cell is embedded as a computation over an explicit world:   *)
(* the file system, the native heap, the table of open C streams, the    *)
(* log of foreign calls and the interpreter's global names.              *)
(*                                                                       *)
(* The literals 32 and 8 of the notebook are parameters of the cells;    *)
(* the notebook_* definitions put them back. The C functions follow the  *)
(* GNU C Library manual: fread returns 0 for an empty request, else      *)
(* copies the bytes that are there and returns the number of complete    *)
(* elements; a NULL or closed stream kills the process. An array that    *)
(* no name refers to any more is freed at once, as CPython does. The     *)
(* setup cells (loading libc, binding fopen, fread, fclose, file and     *)
(* mode, declaring argtypes and restype) are taken as run; the clock     *)
(* readings around the loop and the last cell, which times PyNaCl's own  *)
(* wrapper, are not modelled.                                            *)
(* ===================================================================== *)

From Stdlib Require Import ZArith List Ascii String Strings.Byte HexString.
From stdpp Require Import gmap strings list fin_maps.

Import ListNotations.
Local Open Scope Z_scope.
Local Open Scope string_scope.
Local Open Scope list_scope.

(* --------------------------------------------------------------------- *)
(* Data                                                                  *)
(* --------------------------------------------------------------------- *)

Module FFI.

Abbreviation byte := Byte.byte.

(** A ctypes/cffi array object: the base address of its storage and its
    length in bytes. *)
Record Buffer := mkBuffer { b_addr : Z; b_size : nat }.

(** One entry of the log of foreign calls, with the arguments as they
    reach the C side (a NULL pointer is 0). *)
Inductive NativeCall :=
| CFopen (path mode : string)
| CFread (ptr : Z) (size count : nat) (stream : Z)
| CFclose (stream : Z)
| CMemset (ptr : Z) (c : Z) (n : nat)
| CRandombytes (ptr : Z) (n : nat).

(** What a cell can raise: the Python exceptions the code can meet, and
    the death of the process inside a foreign call. *)
Inductive Failure :=
| NameError (name : string)
| MemoryError
| OverflowError
| Segfault
| Unmodelled.                          (* a call this model does not cover *)

Record World := mkWorld {
  fs : gmap string (list byte);        (* files that open for reading: path to contents *)
  heap : gmap Z (list byte);           (* native blocks by base address *)
  reserve : nat;                       (* bytes the allocator has left *)
  streams : gmap Z (list byte);        (* open FILE objects: bytes not yet read *)
  close_status : Z;                    (* what the OS answers to the next close *)
  trace : list NativeCall;             (* foreign calls made so far, oldest first *)
  v_data : option Buffer;              (* global name data *)
  v_fp : option (option Z);            (* global name fp; None inside is a NULL *)
  v_bs : option Buffer                 (* global name bs *)
}.

(** The bytes the allocator can still hand out: what it has left, and
    never as much as 2^63, the first size an ssize_t cannot hold. *)
Definition capacity (w : World) : nat :=
  Z.to_nat (Z.min (Z.of_nat (reserve w)) (2 ^ 63 - 1)).

(** Field updates of the world. *)
Definition set_fs (f : gmap string (list byte) -> gmap string (list byte)) (w : World) : World :=
  mkWorld (f (fs w)) (heap w) (reserve w) (streams w) (close_status w)
          (trace w) (v_data w) (v_fp w) (v_bs w).
Definition set_heap (f : gmap Z (list byte) -> gmap Z (list byte)) (w : World) : World :=
  mkWorld (fs w) (f (heap w)) (reserve w) (streams w) (close_status w)
          (trace w) (v_data w) (v_fp w) (v_bs w).
Definition set_capacity (c : nat) (w : World) : World :=
  mkWorld (fs w) (heap w) c (streams w) (close_status w)
          (trace w) (v_data w) (v_fp w) (v_bs w).
Definition set_streams (f : gmap Z (list byte) -> gmap Z (list byte)) (w : World) : World :=
  mkWorld (fs w) (heap w) (reserve w) (f (streams w)) (close_status w)
          (trace w) (v_data w) (v_fp w) (v_bs w).
Definition log (c : NativeCall) (w : World) : World :=
  mkWorld (fs w) (heap w) (reserve w) (streams w) (close_status w)
          (trace w ++ [c]) (v_data w) (v_fp w) (v_bs w).
Definition set_data (b : Buffer) (w : World) : World :=
  mkWorld (fs w) (heap w) (reserve w) (streams w) (close_status w)
          (trace w) (Some b) (v_fp w) (v_bs w).
Definition set_fp (h : option Z) (w : World) : World :=
  mkWorld (fs w) (heap w) (reserve w) (streams w) (close_status w)
          (trace w) (v_data w) (Some h) (v_bs w).
Definition set_bs (b : Buffer) (w : World) : World :=
  mkWorld (fs w) (heap w) (reserve w) (streams w) (close_status w)
          (trace w) (v_data w) (v_fp w) (Some b).

(* --------------------------------------------------------------------- *)
(* Computations: state passing with failures that keep the state         *)
(* --------------------------------------------------------------------- *)

Inductive Outcome (A : Type) :=
| Val (a : A)
| Raise (e : Failure).
Arguments Val {A} a.
Arguments Raise {A} e.

Definition Cell (A : Type) : Type := World -> Outcome A * World.

Definition ret {A} (a : A) : Cell A := fun w => (Val a, w).
Definition raise {A} (e : Failure) : Cell A := fun w => (Raise e, w).
Definition bind {A B} (m : Cell A) (k : A -> Cell B) : Cell B :=
  fun w => match m w with
           | (Val a, w') => k a w'
           | (Raise e, w') => (Raise e, w')
           end.
Definition modify (f : World -> World) : Cell unit := fun w => (Val tt, f w).
Definition gets {A} (f : World -> A) : Cell A := fun w => (Val (f w), w).

#[global] Instance cell_ret : MRet Cell := @ret.
#[global] Instance cell_bind : MBind Cell := fun A B k m => bind m k.

(* --------------------------------------------------------------------- *)
(* The interpreter's global names                                        *)
(* --------------------------------------------------------------------- *)

(** Reading a global that no cell has bound yet raises NameError. *)
Definition name_data : Cell Buffer :=
  fun w => match v_data w with
           | Some b => (Val b, w)
           | None => (Raise (NameError "data"), w)
           end.
Definition name_fp : Cell (option Z) :=
  fun w => match v_fp w with
           | Some h => (Val h, w)
           | None => (Raise (NameError "fp"), w)
           end.
Definition name_bs : Cell Buffer :=
  fun w => match v_bs w with
           | Some b => (Val b, w)
           | None => (Raise (NameError "bs"), w)
           end.

(* --------------------------------------------------------------------- *)
(* Host-side helpers: secrets, bytes, hex, allocation                    *)
(* --------------------------------------------------------------------- *)

(** secrets.token_bytes(n), reading the draws of the generator off rnd. *)
Definition token_bytes (rnd : nat -> byte) (n : nat) : list byte :=
  map rnd (seq 0 n).

(** with open(path, "wb") as f: f.write(content) *)
Definition py_write (path : string) (content : list byte) : Cell unit :=
  modify (set_fs (fun m => <[path := content]> m)).

Definition hex_digit (n : N) : ascii :=
  match n with
  | 0%N => "0" | 1%N => "1" | 2%N => "2" | 3%N => "3"
  | 4%N => "4" | 5%N => "5" | 6%N => "6" | 7%N => "7"
  | 8%N => "8" | 9%N => "9" | 10%N => "a" | 11%N => "b"
  | 12%N => "c" | 13%N => "d" | 14%N => "e" | _ => "f"
  end%char.

(** bytes.hex(): two lowercase digits per byte. *)
Fixpoint bytes_hex (bs : list byte) : string :=
  match bs with
  | [] => ""
  | b :: rest =>
      let n := Byte.to_N b in
      String (hex_digit (n / 16)) (String (hex_digit (n mod 16)) (bytes_hex rest))
  end.

(** The base address the allocator hands out next: not NULL, not in use. *)
Definition next_block (w : World) : Z := fresh ({[0]} ∪ dom (heap w)).

(** The allocator behind ctypes and cffi arrays: a fresh non-null base
    address, n zero bytes; no block when the request exceeds what is left. *)
Definition alloc_zeroed (n : nat) : Cell Buffer :=
  fun w =>
    if (n <=? capacity w)%nat then
      let a : Z := next_block w in
      (Val (mkBuffer a n),
       set_capacity (capacity w - n) (set_heap (fun h => <[a := replicate n x00]> h) w))
    else (Raise MemoryError, w).

(** A size an ssize_t can hold. *)
Definition fits_ssize_t (n : nat) : bool := (Z.of_nat n <? 2 ^ 63)%Z.

(** ctypes.create_string_buffer(n): the array type c_char * n is made
    first, and a length beyond ssize_t is refused there with
    OverflowError, before any allocation. *)
Definition create_string_buffer (n : nat) : Cell Buffer :=
  if fits_ssize_t n then alloc_zeroed n else raise OverflowError.

(** ffi.new("unsigned char[]", n): the length is read as an ssize_t,
    OverflowError when it is not one, then the array is allocated. *)
Definition ffi_new (n : nat) : Cell Buffer :=
  if fits_ssize_t n then alloc_zeroed n else raise OverflowError.

(** Some global name is bound to the array at address a. *)
Definition referenced (a : Z) (w : World) : bool :=
  match v_data w with Some b => bool_decide (b_addr b = a) | None => false end
  || match v_bs w with Some b => bool_decide (b_addr b = a) | None => false end.

(** The allocator takes the block at a back. *)
Definition free (a : Z) (w : World) : World :=
  match heap w !! a with
  | Some blk => set_capacity (capacity w + length blk) (set_heap (fun h => delete a h) w)
  | None => w
  end.

(** An array loses the reference a name held: it is freed at once,
    unwiped, unless a name still refers to it. *)
Definition drop_ref (old : option Buffer) (w : World) : World :=
  match old with
  | Some o => if referenced (b_addr o) w then w else free (b_addr o) w
  | None => w
  end.

(** data = b and bs = b: the name is rebound, then the array it named
    before loses that reference. *)
Definition assign_data (b : Buffer) : Cell unit :=
  fun w => (Val tt, drop_ref (v_data w) (set_data b w)).
Definition assign_bs (b : Buffer) : Cell unit :=
  fun w => (Val tt, drop_ref (v_bs w) (set_bs b w)).

(** ctypes.addressof(obj) *)
Definition addressof (b : Buffer) : Z := b_addr b.

(** bytes(obj): a copy of the array's b_size bytes. *)
Definition bytes (b : Buffer) : Cell (list byte) :=
  fun w => match heap w !! b_addr b with
           | Some blk => (Val (take (b_size b) blk), w)
           | None => (Raise Segfault, w)
           end.

(* --------------------------------------------------------------------- *)
(* The C side: libc and libsodium over raw pointers                      *)
(* --------------------------------------------------------------------- *)

Definition EOF : Z := -1.

(** Writing bs at the start of the block at ptr; a pointer to no block,
    or a block too short for bs, kills the process. *)
Definition store (ptr : Z) (bs : list byte) : Cell unit :=
  fun w => match heap w !! ptr with
           | Some blk =>
               if (length bs <=? length blk)%nat then
                 (Val tt, set_heap (fun h => <[ptr := bs ++ drop (length bs) blk]> h) w)
               else (Raise Segfault, w)
           | None => (Raise Segfault, w)
           end.

(** The FILE pointer the library hands out next: not NULL, not open. *)
Definition next_stream (w : World) : Z := fresh ({[0]} ∪ dom (streams w)).

(** FILE *fopen(const char *path, const char *mode) for the reading
    modes, the only ones the notebook uses: a fresh non-null stream on a
    file that opens for reading, NULL on any other path (missing or
    unreadable). The table of streams has no bound. The writing and
    appending modes are outside the model. *)
Definition c_fopen (path mode : string) : Cell Z :=
  modify (log (CFopen path mode));;
  ((fun w =>
    if bool_decide (mode = "rb" ∨ mode = "r") then
      match fs w !! path with
      | Some content =>
          let h : Z := next_stream w in
          (Val h, set_streams (fun t => <[h := content]> t) w)
      | None => (Val 0, w)
      end
    else (Raise Unmodelled, w)) : Cell Z).

(** size_t fread(void *ptr, size_t size, size_t count, FILE *stream):
    an empty request returns 0 before the stream is looked at; otherwise
    the bytes that are there, up to size * count, are copied and the
    number of complete elements is returned. *)
Definition c_fread (ptr : Z) (size count : nat) (stream : Z) : Cell nat :=
  modify (log (CFread ptr size count stream));;
  let want := (size * count)%nat in
  if (want =? 0)%nat then mret 0%nat
  else
    rest ← ((fun w => match streams w !! stream with
                      | Some rest => (Val rest, w)
                      | None => (Raise Segfault, w)
                      end) : Cell (list byte));
    let got := take want rest in
    store ptr got;;
    modify (set_streams (fun t => <[stream := drop want rest]> t));;
    mret (length got / size)%nat.

(** int fclose(FILE *stream): the stream is gone afterwards whatever the
    status reported. *)
Definition c_fclose (stream : Z) : Cell Z :=
  modify (log (CFclose stream));;
  ((fun w => match streams w !! stream with
             | Some _ => (Val (close_status w), set_streams (fun t => delete stream t) w)
             | None => (Raise Segfault, w)
             end) : Cell Z).

(** The int c as an unsigned char. *)
Definition uchar (c : Z) : byte :=
  default x00 (Byte.of_N (Z.to_N (c mod 256))).

(** void *memset(void *ptr, int c, size_t n) *)
Definition c_memset (ptr : Z) (c : Z) (n : nat) : Cell Z :=
  modify (log (CMemset ptr c n));;
  store ptr (replicate n (uchar c));;
  mret ptr.

(** void randombytes(unsigned char *buf, size_t n), reading the draws of
    the generator off rnd. *)
Definition c_randombytes (rnd : nat -> byte) (ptr : Z) (n : nat) : Cell unit :=
  modify (log (CRandombytes ptr n));;
  store ptr (map rnd (seq 0 n)).

(* --------------------------------------------------------------------- *)
(* The foreign functions as the notebook declares them                   *)
(* --------------------------------------------------------------------- *)

(** restype c_void_p: a NULL comes back as None, anything else as an int. *)
Definition from_void_p (p : Z) : option Z := if bool_decide (p = 0) then None else Some p.
(** argtypes c_void_p: None goes out as NULL. *)
Definition to_void_p (o : option Z) : Z :=
  match o with Some p => p | None => 0 end.
(** restype c_int (the default): the low 32 bits, signed. *)
Definition to_c_int (z : Z) : Z := (z + 2 ^ 31) mod 2 ^ 32 - 2 ^ 31.

(** fopen.argtypes = [c_char_p, c_char_p]; fopen.restype = c_void_p *)
Definition fopen (file mode : string) : Cell (option Z) :=
  p ← c_fopen file mode; mret (from_void_p p).

(** fread.argtypes = [c_void_p, c_size_t, c_size_t, c_void_p];
    fread.restype = c_size_t *)
Definition fread (buf : Buffer) (size count : nat) (fp : option Z) : Cell nat :=
  c_fread (addressof buf) size count (to_void_p fp).

(** fclose.argtypes = [c_void_p]; fclose.restype = c_int *)
Definition fclose (fp : option Z) : Cell Z :=
  r ← c_fclose (to_void_p fp); mret (to_c_int r).

(** libc.memset.argtypes = [c_void_p, c_int, c_size_t] *)
Definition memset (buf : Buffer) (c : Z) (n : nat) : Cell Z :=
  r ← c_memset (addressof buf) c n; mret (to_c_int r).

(** lib.randombytes through cffi *)
Definition randombytes (rnd : nat -> byte) (buf : Buffer) (n : nat) : Cell unit :=
  c_randombytes rnd (addressof buf) n.

(* --------------------------------------------------------------------- *)
(* The code cells                                                        *)
(* --------------------------------------------------------------------- *)

(** file = c_char_p("data.txt".encode("ascii"))
    mode = c_char_p("rb".encode("ascii")) *)
Definition file : string := "data.txt".
Definition mode : string := "rb".

(** with open("data.txt", "wb") as file:
        file.write(token_bytes(32))
    The 32 is the parameter n. *)
Definition cell_write (rnd : nat -> byte) (n : nat) : Cell unit :=
  py_write "data.txt" (token_bytes rnd n).

(** data = ctypes.create_string_buffer(32) *)
Definition cell_allocate (n : nat) : Cell unit :=
  b ← create_string_buffer n;
  assign_data b.

(** fp = fopen(file, mode)
    fread(data, 32, 1, fp)
    fclose(fp)
    bytes(data).hex() *)
Definition cell_load (n : nat) : Cell string :=
  h ← fopen file mode;
  modify (set_fp h);;
  data ← name_data;
  fp ← name_fp;
  _ ← fread data n 1 fp;
  fp ← name_fp;
  _ ← fclose fp;
  data ← name_data;
  content ← bytes data;
  mret (bytes_hex content).

(** hex(addressof(data)) *)
Definition cell_address : Cell string :=
  data ← name_data;
  mret (HexString.of_Z (addressof data)).

(** libc.memset(data, 0, 32)
    bytes(data).hex() *)
Definition cell_clear (n : nat) : Cell string :=
  data ← name_data;
  _ ← memset data 0 n;
  data ← name_data;
  content ← bytes data;
  mret (bytes_hex content).

(** bs = ffi.new("unsigned char[]", 8)
    lib.randombytes(bs, 8)
    bytes(bs).hex()
    The 8 is the parameter m. *)
Definition cell_random (rnd : nat -> byte) (m : nat) : Cell string :=
  b ← ffi_new m;
  assign_bs b;;
  bs ← name_bs;
  randombytes rnd bs m;;
  bs ← name_bs;
  content ← bytes bs;
  mret (bytes_hex content).

(** What the test code reads off the region: bytes(data). *)
Definition peek : Cell (list byte) :=
  data ← name_data; bytes data.

(** The address of the region, before formatting. *)
Definition address : Cell Z :=
  data ← name_data; mret (addressof data).

(** The notebook as written: 32 secret bytes, an 8-byte random buffer. *)
Definition notebook_write (rnd : nat -> byte) : Cell unit := cell_write rnd 32.
Definition notebook_allocate : Cell unit := cell_allocate 32.
Definition notebook_load : Cell string := cell_load 32.
Definition notebook_clear : Cell string := cell_clear 32.
Definition notebook_random (rnd : nat -> byte) : Cell string := cell_random rnd 8.

(** A machine with nothing on it yet. *)
Definition boot (cap : nat) (status : Z) : World :=
  mkWorld ∅ ∅ cap ∅ status [] None None None.

(* --------------------------------------------------------------------- *)
(* Cells run one after the other, in the order a user picks              *)
(* --------------------------------------------------------------------- *)

Inductive Op := OLoad | OAddress | OClear.

Definition run_op (n : nat) (op : Op) : Cell unit :=
  match op with
  | OLoad => cell_load n;; mret tt
  | OAddress => cell_address;; mret tt
  | OClear => cell_clear n;; mret tt
  end.

Fixpoint run_ops (n : nat) (ops : list Op) : Cell unit :=
  match ops with
  | [] => mret tt
  | op :: rest => run_op n op;; run_ops n rest
  end.

(** The buffer bound to data is the n-byte block at a. *)
Definition region (n : nat) (a : Z) (w : World) : Prop :=
  v_data w = Some (mkBuffer a n) /\
  exists blk, heap w !! a = Some blk /\ length blk = n.

(** A generator whose draws are the bytes of s, in order. *)
Definition replay (s : list byte) : nat -> byte := fun i => nth i s x00.

(* --------------------------------------------------------------------- *)
(* The world a cell leaves behind when it runs to its end                *)
(* --------------------------------------------------------------------- *)

(** The region once a read of up to n bytes of content has landed in blk. *)
Definition region_after_load (n : nat) (content blk : list byte) : list byte :=
  take n content ++ drop (length (take n content)) blk.

Definition after_load (n : nat) (b : Buffer) (content blk : list byte) (w : World) : World :=
  mkWorld (fs w) (<[b_addr b := region_after_load n content blk]> (heap w))
          (reserve w) (streams w) (close_status w)
          (trace w ++ [CFopen file mode;
                       CFread (b_addr b) n 1 (next_stream w);
                       CFclose (next_stream w)])
          (v_data w) (Some (Some (next_stream w))) (v_bs w).

Definition after_clear (n : nat) (b : Buffer) (blk : list byte) (w : World) : World :=
  mkWorld (fs w) (<[b_addr b := replicate n x00 ++ drop n blk]> (heap w))
          (reserve w) (streams w) (close_status w)
          (trace w ++ [CMemset (b_addr b) 0 n])
          (v_data w) (v_fp w) (v_bs w).

Definition after_allocate (n : nat) (w : World) : World :=
  drop_ref (v_data w)
    (mkWorld (fs w) (<[next_block w := replicate n x00]> (heap w))
             (capacity w - n) (streams w) (close_status w)
             (trace w) (Some (mkBuffer (next_block w) n)) (v_fp w) (v_bs w)).

(** The world once bs names a new block at the next address, before
    randombytes fills it. *)
Definition with_new_bs (m : nat) (w : World) : World :=
  drop_ref (v_bs w)
    (mkWorld (fs w) (<[next_block w := replicate m x00]> (heap w))
             (capacity w - m) (streams w) (close_status w)
             (trace w) (v_data w) (v_fp w) (Some (mkBuffer (next_block w) m))).

Definition after_random (rnd : nat -> byte) (m : nat) (w : World) : World :=
  set_heap (fun h => <[next_block w := map rnd (seq 0 m)]> h)
    (log (CRandombytes (next_block w) m) (with_new_bs m w)).

(* --------------------------------------------------------------------- *)
(* Concrete machines used to exercise the statements                     *)
(* --------------------------------------------------------------------- *)

(** A fixed run of the generator: 250, 1, 8, 15, ... *)
Definition gen : nat -> byte :=
  fun i => default x00 (Byte.of_N (N.of_nat (i * 7 + 250) mod 256)).

(** The machine after the cell that writes data.txt. *)
Definition w_written : World := snd (notebook_write gen (boot 64 0)).

(** ... after the buffer is allocated as well. *)
Definition w_allocated : World := snd (notebook_allocate w_written).

(** ... and after the file is loaded into it. *)
Definition w_loaded : World := snd (notebook_load w_allocated).

(** A machine whose data.txt holds three bytes only, buffer allocated. *)
Definition w_short : World :=
  snd ((py_write file [x01; x02; x03];; notebook_allocate) (boot 64 0)).

(** A machine with the buffer allocated and no data.txt. *)
Definition w_nofile : World := snd (notebook_allocate (boot 64 0)).

(** A machine on which close reports an error. *)
Definition w_badclose : World :=
  snd ((notebook_write gen;; notebook_allocate) (boot 64 EOF)).

(* --------------------------------------------------------------------- *)
(* The remaining cells                                                   *)
(* --------------------------------------------------------------------- *)

(** str.encode("ascii"): one byte per character; a character beyond 127
    raises UnicodeEncodeError, which is None here. *)
Fixpoint encode_ascii (s : string) : option (list byte) :=
  match s with
  | EmptyString => Some []
  | String c rest =>
      if (nat_of_ascii c <? 128)%nat
      then match encode_ascii rest with
           | Some bs => Some (byte_of_ascii c :: bs)
           | None => None
           end
      else None
  end.

(** c_char_p(bs), as the C side reads it through the pointer: the
    characters up to the first NUL. *)
Fixpoint c_char_p (bs : list byte) : string :=
  match bs with
  | [] => EmptyString
  | b :: rest =>
      match b with
      | x00 => EmptyString
      | _ => String (ascii_of_byte b) (c_char_p rest)
      end
  end.

(** Reading two hexadecimal digits back as a byte. *)
Definition unhex_digit (c : ascii) : option N :=
  match c with
  | "0" => Some 0%N | "1" => Some 1%N | "2" => Some 2%N | "3" => Some 3%N
  | "4" => Some 4%N | "5" => Some 5%N | "6" => Some 6%N | "7" => Some 7%N
  | "8" => Some 8%N | "9" => Some 9%N | "a" => Some 10%N | "b" => Some 11%N
  | "c" => Some 12%N | "d" => Some 13%N | "e" => Some 14%N | "f" => Some 15%N
  | _ => None
  end%char.

Definition unhex_byte (hi lo : ascii) : option byte :=
  match unhex_digit hi, unhex_digit lo with
  | Some h, Some l => Byte.of_N (16 * h + l)
  | _, _ => None
  end.

(** for i in range(k): body(i), with i counted from i0. *)
Fixpoint for_range (k : nat) (i0 : nat) (body : nat -> Cell unit) : Cell unit :=
  match k with
  | O => mret tt
  | S k' => body i0;; for_range k' (S i0) body
  end.

(** for _ in range(10**6):
        lib.randombytes(bs, 8)
    The two readings of the clock around the loop are left out; rnds i is
    what the generator draws at iteration i. The 10**6 and the 8 are the
    parameters iters and m. *)
Definition cell_timing (rnds : nat -> nat -> byte) (iters m : nat) : Cell unit :=
  for_range iters 0 (fun i => bs ← name_bs; randombytes (rnds i) bs m).

Definition notebook_timing (rnds : nat -> nat -> byte) : Cell unit :=
  cell_timing rnds (10 ^ 6) 8.

(** The cells that follow the writing of data.txt, as commands. *)
Inductive Cmd :=
| KAllocate (n : nat)
| KLoad (n : nat)
| KAddress
| KClear (n : nat)
| KRandom (rnd : nat -> byte) (m : nat)
| KTiming (rnds : nat -> nat -> byte) (iters m : nat).

Definition run_cmd (c : Cmd) : Cell unit :=
  match c with
  | KAllocate n => cell_allocate n
  | KLoad n => cell_load n;; mret tt
  | KAddress => cell_address;; mret tt
  | KClear n => cell_clear n;; mret tt
  | KRandom rnd m => cell_random rnd m;; mret tt
  | KTiming rnds iters m => cell_timing rnds iters m
  end.

(** Commands run in a row; the first failure ends the run. *)
Fixpoint run_cmds (cs : list Cmd) : Cell unit :=
  match cs with
  | [] => mret tt
  | c :: rest => run_cmd c;; run_cmds rest
  end.

(** A computation that leaves the files as they are, however it ends. *)
Definition steady {A} (c : Cell A) : Prop := forall w, fs (snd (c w)) = fs w.

End FFI.

Import FFI.

(* --------------------------------------------------------------------- *)
(* Running a cell step by step                                           *)
(* --------------------------------------------------------------------- *)

Ltac fields :=
  cbn [fs heap reserve streams close_status trace v_data v_fp v_bs
       set_fs set_heap set_capacity set_streams log set_data set_fp set_bs].

Lemma world_eq w1 w2 :
  fs w1 = fs w2 -> heap w1 = heap w2 -> reserve w1 = reserve w2 ->
  streams w1 = streams w2 -> close_status w1 = close_status w2 ->
  trace w1 = trace w2 -> v_data w1 = v_data w2 -> v_fp w1 = v_fp w2 ->
  v_bs w1 = v_bs w2 -> w1 = w2.
Proof.
  destruct w1, w2. cbn. intros. now subst.
Qed.

Section Steps.
Context {A B : Type}.

Lemma bind_val (m : Cell A) (k : A -> Cell B) w a w' :
  m w = (Val a, w') -> (m ≫= k) w = k a w'.
Proof. intros H. unfold mbind, cell_bind, bind. now rewrite H. Qed.

Lemma bind_raise (m : Cell A) (k : A -> Cell B) w e w' :
  m w = (Raise e, w') -> (m ≫= k) w = (Raise e, w').
Proof. intros H. unfold mbind, cell_bind, bind. now rewrite H. Qed.

Lemma bind_modify (f : World -> World) (k : unit -> Cell B) w :
  (modify f ≫= k) w = k tt (f w).
Proof. reflexivity. Qed.
End Steps.

Lemma next_stream_nonnull w : next_stream w <> 0.
Proof.
  unfold next_stream. intros E.
  pose proof (is_fresh ({[0]} ∪ dom (streams w))) as Hf. rewrite E in Hf. set_solver.
Qed.

Lemma next_stream_closed w : streams w !! next_stream w = None.
Proof.
  apply not_elem_of_dom. unfold next_stream.
  pose proof (is_fresh ({[0]} ∪ dom (streams w))) as Hf. set_solver.
Qed.

Lemma next_block_nonnull w : next_block w <> 0.
Proof.
  unfold next_block. intros E.
  pose proof (is_fresh ({[0]} ∪ dom (heap w))) as Hf. rewrite E in Hf. set_solver.
Qed.

Lemma next_block_unused w : heap w !! next_block w = None.
Proof.
  apply not_elem_of_dom. unfold next_block.
  pose proof (is_fresh ({[0]} ∪ dom (heap w))) as Hf. set_solver.
Qed.

Lemma fopen_found w content :
  fs w !! file = Some content ->
  fopen file mode w =
    (Val (Some (next_stream w)),
     set_streams (fun t => <[next_stream w := content]> t) (log (CFopen file mode) w)).
Proof.
  intros Hf.
  unfold fopen, c_fopen, mbind, cell_bind, bind, modify, mret, cell_ret, ret.
  rewrite bool_decide_true by (now left).
  cbn [fs log]. rewrite Hf. cbn [streams log].
  unfold from_void_p. rewrite bool_decide_false; [reflexivity|]. apply next_stream_nonnull.
Qed.

Lemma fopen_missing w :
  fs w !! file = None ->
  fopen file mode w = (Val None, log (CFopen file mode) w).
Proof.
  intros Hf.
  unfold fopen, c_fopen, mbind, cell_bind, bind, modify, mret, cell_ret, ret.
  rewrite bool_decide_true by (now left).
  cbn [fs log]. rewrite Hf. unfold from_void_p. now rewrite bool_decide_true.
Qed.

Lemma store_ok ptr bs w blk :
  heap w !! ptr = Some blk -> (length bs <= length blk)%nat ->
  store ptr bs w =
    (Val tt, set_heap (fun h => <[ptr := bs ++ drop (length bs) blk]> h) w).
Proof.
  intros Hb Hl. unfold store. rewrite Hb.
  now rewrite (proj2 (Nat.leb_le _ _) Hl).
Qed.

Lemma fread_open buf size count h w rest blk :
  streams w !! h = Some rest ->
  heap w !! b_addr buf = Some blk ->
  (size * count <= length blk)%nat ->
  let got := take (size * count) rest in
  fread buf size count (Some h) w =
    (Val (length got / size)%nat,
     set_streams (fun t => <[h := drop (size * count) rest]> t)
       (set_heap (fun m => <[b_addr buf := got ++ drop (length got) blk]> m)
          (log (CFread (b_addr buf) size count h) w))).
Proof.
  intros Hs Hb Hl got.
  unfold fread, c_fread, addressof, to_void_p.
  rewrite bind_modify.
  destruct (size * count =? 0)%nat eqn:E.
  - apply Nat.eqb_eq in E. subst got. rewrite E. cbn [take length].
    rewrite Nat.Div0.div_0_l. unfold mret, cell_ret, ret. f_equal.
    apply world_eq; fields; try reflexivity.
    + rewrite drop_0. now rewrite insert_id by assumption.
    + rewrite drop_0. now rewrite insert_id by assumption.
  - erewrite bind_val by (cbn [streams log]; rewrite Hs; reflexivity).
    assert (Hg : (length got <= length blk)%nat).
    { subst got. rewrite length_take. lia. }
    erewrite bind_val by (apply store_ok; [cbn; exact Hb | exact Hg]).
    now rewrite bind_modify.
Qed.

Lemma fread_null buf size count w :
  (size * count)%nat <> 0%nat ->
  streams w !! 0 = None ->
  fread buf size count None w =
    (Raise Segfault, log (CFread (b_addr buf) size count 0) w).
Proof.
  intros Hn Hs. unfold fread, c_fread, addressof, to_void_p.
  rewrite bind_modify.
  rewrite (proj2 (Nat.eqb_neq _ _) Hn).
  erewrite bind_raise by (cbn [streams log]; rewrite Hs; reflexivity).
  reflexivity.
Qed.

Lemma fread_empty buf size count fp w :
  (size * count)%nat = 0%nat ->
  fread buf size count fp w =
    (Val 0%nat, log (CFread (b_addr buf) size count (to_void_p fp)) w).
Proof.
  intros Hn. unfold fread, c_fread, addressof.
  rewrite bind_modify. now rewrite (proj2 (Nat.eqb_eq _ _) Hn).
Qed.

Lemma fclose_null w :
  streams w !! 0 = None ->
  fclose None w = (Raise Segfault, log (CFclose 0) w).
Proof.
  intros Hs. unfold fclose, c_fclose, to_void_p.
  unfold mbind, cell_bind, bind, modify.
  cbn [streams log]. now rewrite Hs.
Qed.

Lemma fclose_open h w rest :
  streams w !! h = Some rest ->
  fclose (Some h) w =
    (Val (to_c_int (close_status w)),
     set_streams (fun t => delete h t) (log (CFclose h) w)).
Proof.
  intros Hs. unfold fclose, c_fclose, to_void_p.
  unfold mbind, cell_bind, bind, modify, mret, cell_ret, ret.
  cbn [streams log]. now rewrite Hs.
Qed.

Lemma memset_ok buf c n w blk :
  heap w !! b_addr buf = Some blk -> (n <= length blk)%nat ->
  memset buf c n w =
    (Val (to_c_int (b_addr buf)),
     set_heap (fun m => <[b_addr buf := replicate n (uchar c) ++ drop n blk]> m)
       (log (CMemset (b_addr buf) c n) w)).
Proof.
  intros Hb Hl. unfold memset, c_memset, addressof.
  unfold mbind at 1. unfold cell_bind at 1. unfold bind at 1.
  rewrite bind_modify.
  erewrite bind_val
    by (apply store_ok with (blk := blk); [exact Hb | now rewrite length_replicate]).
  rewrite length_replicate. reflexivity.
Qed.

Lemma randombytes_ok rnd buf n w blk :
  heap w !! b_addr buf = Some blk -> (n <= length blk)%nat ->
  randombytes rnd buf n w =
    (Val tt,
     set_heap (fun m => <[b_addr buf := map rnd (seq 0 n) ++ drop n blk]> m)
       (log (CRandombytes (b_addr buf) n) w)).
Proof.
  intros Hb Hl. unfold randombytes, c_randombytes, addressof.
  rewrite bind_modify.
  rewrite (store_ok _ _ _ blk); [| exact Hb | now rewrite length_map, length_seq].
  now rewrite length_map, length_seq.
Qed.

Lemma bytes_ok buf w blk :
  heap w !! b_addr buf = Some blk ->
  bytes buf w = (Val (take (b_size buf) blk), w).
Proof. intros Hb. unfold bytes. now rewrite Hb. Qed.

Lemma alloc_zeroed_ok n w :
  (n <= capacity w)%nat ->
  alloc_zeroed n w =
    (Val (mkBuffer (next_block w) n),
     set_capacity (capacity w - n)
       (set_heap (fun h => <[next_block w := replicate n x00]> h) w)).
Proof.
  intros Hc. unfold alloc_zeroed. now rewrite (proj2 (Nat.leb_le _ _) Hc).
Qed.

Lemma alloc_zeroed_full n w :
  (capacity w < n)%nat ->
  alloc_zeroed n w = (Raise MemoryError, w).
Proof.
  intros Hc. unfold alloc_zeroed. now rewrite (proj2 (Nat.leb_gt _ _) Hc).
Qed.

Lemma name_data_bound w b : v_data w = Some b -> name_data w = (Val b, w).
Proof. intros H. unfold name_data. now rewrite H. Qed.

Lemma name_data_unbound w :
  v_data w = None -> name_data w = (Raise (NameError "data"), w).
Proof. intros H. unfold name_data. now rewrite H. Qed.

(* --------------------------------------------------------------------- *)
(* What each cell does to a world in which it runs to its end            *)
(* --------------------------------------------------------------------- *)

Lemma cell_load_ok n w b content blk :
  v_data w = Some b ->
  heap w !! b_addr b = Some blk ->
  (n <= length blk)%nat ->
  fs w !! file = Some content ->
  cell_load n w =
    (Val (bytes_hex (take (b_size b) (region_after_load n content blk))),
     after_load n b content blk w).
Proof.
  intros Hd Hb Hl Hf. unfold cell_load.
  erewrite bind_val by (apply fopen_found; exact Hf).
  rewrite bind_modify.
  erewrite bind_val by (apply name_data_bound; exact Hd).
  erewrite bind_val by reflexivity.
  erewrite bind_val.
  2:{ apply fread_open with (rest := content) (blk := blk).
      - fields. apply lookup_insert_eq.
      - exact Hb.
      - lia. }
  rewrite Nat.mul_1_r.
  erewrite bind_val by reflexivity.
  erewrite bind_val by (eapply fclose_open; fields; apply lookup_insert_eq).
  erewrite bind_val by (apply name_data_bound; exact Hd).
  erewrite bind_val by (apply bytes_ok; fields; apply lookup_insert_eq).
  unfold mret, cell_ret, ret. f_equal.
  apply world_eq; unfold after_load, region_after_load; fields; try reflexivity.
  - rewrite insert_insert_eq. rewrite delete_insert_eq.
    apply delete_id, next_stream_closed.
  - now rewrite <- !app_assoc.
Qed.

Lemma cell_clear_ok n w b blk :
  v_data w = Some b ->
  heap w !! b_addr b = Some blk ->
  (n <= length blk)%nat ->
  cell_clear n w =
    (Val (bytes_hex (take (b_size b) (replicate n x00 ++ drop n blk))),
     after_clear n b blk w).
Proof.
  intros Hd Hb Hl. unfold cell_clear.
  erewrite bind_val by (apply name_data_bound; exact Hd).
  erewrite bind_val by (apply memset_ok with (blk := blk); [exact Hb | exact Hl]).
  erewrite bind_val by (apply name_data_bound; exact Hd).
  erewrite bind_val by (apply bytes_ok; fields; apply lookup_insert_eq).
  reflexivity.
Qed.

(** Sizes and the allocator's reserve. *)

Lemma capacity_bound w : Z.of_nat (capacity w) < 2 ^ 63.
Proof. unfold capacity. lia. Qed.

Lemma fits_within_capacity n w : (n <= capacity w)%nat -> fits_ssize_t n = true.
Proof.
  intros Hc. pose proof (capacity_bound w). unfold fits_ssize_t.
  apply Z.ltb_lt. lia.
Qed.

Lemma capacity_same w w' : reserve w' = reserve w -> capacity w' = capacity w.
Proof. intros H. unfold capacity. now rewrite H. Qed.

Lemma capacity_set c w :
  Z.of_nat c < 2 ^ 63 -> capacity (set_capacity c w) = c.
Proof. intros H. unfold capacity. fields. lia. Qed.

(** What dropping a reference leaves alone. *)

Lemma free_frame a w :
  fs (free a w) = fs w /\ streams (free a w) = streams w /\
  close_status (free a w) = close_status w /\ trace (free a w) = trace w /\
  v_data (free a w) = v_data w /\ v_fp (free a w) = v_fp w /\
  v_bs (free a w) = v_bs w /\
  (forall a', a' <> a -> heap (free a w) !! a' = heap w !! a').
Proof.
  unfold free. destruct (heap w !! a); fields; repeat split; try reflexivity.
  intros a' Ha. now apply lookup_delete_ne.
Qed.

Lemma drop_ref_frame old w :
  fs (drop_ref old w) = fs w /\ streams (drop_ref old w) = streams w /\
  close_status (drop_ref old w) = close_status w /\
  trace (drop_ref old w) = trace w /\
  v_data (drop_ref old w) = v_data w /\ v_fp (drop_ref old w) = v_fp w /\
  v_bs (drop_ref old w) = v_bs w.
Proof.
  unfold drop_ref. destruct old as [o|]; [|repeat split].
  destruct (referenced (b_addr o) w); [repeat split|].
  destruct (free_frame (b_addr o) w) as (H1 & H2 & H3 & H4 & H5 & H6 & H7 & _).
  repeat split; assumption.
Qed.

Lemma drop_ref_keeps_referenced old w a :
  referenced a w = true -> heap (drop_ref old w) !! a = heap w !! a.
Proof.
  intros Hr. unfold drop_ref. destruct old as [o|]; [|reflexivity].
  destruct (referenced (b_addr o) w) eqn:Ho; [reflexivity|].
  apply free_frame. intros ->. congruence.
Qed.

Lemma drop_ref_gone o blk w :
  heap w !! b_addr o = Some blk ->
  referenced (b_addr o) w = false ->
  heap (drop_ref (Some o) w) !! b_addr o = None /\
  reserve (drop_ref (Some o) w) = (capacity w + length blk)%nat.
Proof.
  intros Hb Hr. unfold drop_ref. rewrite Hr. unfold free. rewrite Hb. fields.
  split; [apply lookup_delete_eq | reflexivity].
Qed.

Lemma referenced_by_data w b : v_data w = Some b -> referenced (b_addr b) w = true.
Proof. intros H. unfold referenced. rewrite H. now rewrite bool_decide_true. Qed.

Lemma referenced_by_bs w b : v_bs w = Some b -> referenced (b_addr b) w = true.
Proof.
  intros H. unfold referenced. rewrite H. rewrite (bool_decide_true (b_addr b = b_addr b)) by reflexivity.
  apply orb_true_r.
Qed.

(** The world after an allocation cell. *)

Lemma after_allocate_frame n w :
  fs (after_allocate n w) = fs w /\ streams (after_allocate n w) = streams w /\
  close_status (after_allocate n w) = close_status w /\
  trace (after_allocate n w) = trace w /\
  v_data (after_allocate n w) = Some (mkBuffer (next_block w) n) /\
  v_fp (after_allocate n w) = v_fp w /\ v_bs (after_allocate n w) = v_bs w.
Proof.
  unfold after_allocate.
  match goal with
  | |- context [drop_ref ?o ?x] =>
      destruct (drop_ref_frame o x) as (H1 & H2 & H3 & H4 & H5 & H6 & H7)
  end.
  rewrite H1, H2, H3, H4, H5, H6, H7. repeat split.
Qed.

Lemma after_allocate_data n w :
  v_data (after_allocate n w) = Some (mkBuffer (next_block w) n).
Proof. apply after_allocate_frame. Qed.

Lemma after_allocate_fs n w : fs (after_allocate n w) = fs w.
Proof. apply after_allocate_frame. Qed.

Lemma after_allocate_block n w :
  heap (after_allocate n w) !! next_block w = Some (replicate n x00).
Proof.
  unfold after_allocate.
  rewrite drop_ref_keeps_referenced; [fields; apply lookup_insert_eq|].
  now apply (referenced_by_data _ (mkBuffer (next_block w) n)).
Qed.

Lemma cell_allocate_ok n w :
  (n <= capacity w)%nat ->
  cell_allocate n w = (Val tt, after_allocate n w).
Proof.
  intros Hc. unfold cell_allocate, create_string_buffer.
  rewrite (fits_within_capacity n w Hc).
  erewrite bind_val by (apply alloc_zeroed_ok; exact Hc).
  reflexivity.
Qed.

Lemma cell_allocate_full n w :
  fits_ssize_t n = true ->
  (capacity w < n)%nat ->
  cell_allocate n w = (Raise MemoryError, w).
Proof.
  intros Hf Hc. unfold cell_allocate, create_string_buffer. rewrite Hf.
  now erewrite bind_raise by (apply alloc_zeroed_full; exact Hc).
Qed.

Lemma cell_allocate_overflow n w :
  fits_ssize_t n = false ->
  cell_allocate n w = (Raise OverflowError, w).
Proof.
  intros Hf. unfold cell_allocate, create_string_buffer. now rewrite Hf.
Qed.

(** The world after a random cell. *)

Lemma with_new_bs_frame m w :
  fs (with_new_bs m w) = fs w /\ streams (with_new_bs m w) = streams w /\
  close_status (with_new_bs m w) = close_status w /\
  trace (with_new_bs m w) = trace w /\
  v_data (with_new_bs m w) = v_data w /\
  v_fp (with_new_bs m w) = v_fp w /\
  v_bs (with_new_bs m w) = Some (mkBuffer (next_block w) m).
Proof.
  unfold with_new_bs.
  match goal with
  | |- context [drop_ref ?o ?x] =>
      destruct (drop_ref_frame o x) as (H1 & H2 & H3 & H4 & H5 & H6 & H7)
  end.
  rewrite H1, H2, H3, H4, H5, H6, H7. repeat split.
Qed.

Lemma with_new_bs_block m w :
  heap (with_new_bs m w) !! next_block w = Some (replicate m x00).
Proof.
  unfold with_new_bs.
  rewrite drop_ref_keeps_referenced; [fields; apply lookup_insert_eq|].
  now apply (referenced_by_bs _ (mkBuffer (next_block w) m)).
Qed.

Lemma with_new_bs_keeps_data m w b blk :
  v_data w = Some b -> heap w !! b_addr b = Some blk ->
  heap (with_new_bs m w) !! b_addr b = Some blk.
Proof.
  intros Hd Hb. unfold with_new_bs.
  rewrite drop_ref_keeps_referenced by (now apply referenced_by_data).
  fields. rewrite lookup_insert_ne; [exact Hb|].
  intros E. pose proof (next_block_unused w) as Hu. rewrite E, Hb in Hu. discriminate Hu.
Qed.

Lemma after_random_frame rnd m w :
  fs (after_random rnd m w) = fs w /\
  trace (after_random rnd m w) = trace w ++ [CRandombytes (next_block w) m] /\
  v_data (after_random rnd m w) = v_data w /\
  v_bs (after_random rnd m w) = Some (mkBuffer (next_block w) m) /\
  heap (after_random rnd m w) !! next_block w = Some (map rnd (seq 0 m)).
Proof.
  destruct (with_new_bs_frame m w) as (H1 & _ & _ & H4 & H5 & _ & H7).
  unfold after_random. fields. rewrite H1, H4, H5, H7.
  repeat split. apply lookup_insert_eq.
Qed.

Lemma after_random_keeps_data rnd m w b blk :
  v_data w = Some b -> heap w !! b_addr b = Some blk ->
  heap (after_random rnd m w) !! b_addr b = Some blk.
Proof.
  intros Hd Hb. unfold after_random. fields. rewrite lookup_insert_ne.
  - now apply with_new_bs_keeps_data.
  - intros E. pose proof (next_block_unused w) as Hu. rewrite E, Hb in Hu. discriminate Hu.
Qed.

Lemma cell_random_ok rnd m w :
  (m <= capacity w)%nat ->
  cell_random rnd m w =
    (Val (bytes_hex (map rnd (seq 0 m))), after_random rnd m w).
Proof.
  intros Hc. unfold cell_random, ffi_new.
  rewrite (fits_within_capacity m w Hc).
  erewrite bind_val by (apply alloc_zeroed_ok; exact Hc).
  assert (Hstep : forall k : unit -> Cell string,
            (assign_bs (mkBuffer (next_block w) m) ≫= k)
              (set_capacity (capacity w - m)
                 (set_heap (fun h => <[next_block w := replicate m x00]> h) w))
            = k tt (with_new_bs m w)) by reflexivity.
  rewrite Hstep. clear Hstep.
  assert (Hv : v_bs (with_new_bs m w) = Some (mkBuffer (next_block w) m))
    by apply with_new_bs_frame.
  erewrite bind_val by (unfold name_bs; rewrite Hv; reflexivity).
  erewrite bind_val.
  2:{ apply randombytes_ok with (blk := replicate m x00).
      - apply with_new_bs_block.
      - now rewrite length_replicate. }
  cbn [b_addr].
  rewrite drop_replicate, Nat.sub_diag. cbn [replicate]. rewrite app_nil_r.
  fold (after_random rnd m w).
  assert (Hv' : v_bs (after_random rnd m w) = Some (mkBuffer (next_block w) m))
    by apply after_random_frame.
  erewrite bind_val by (unfold name_bs; rewrite Hv'; reflexivity).
  erewrite bind_val by (apply bytes_ok; apply after_random_frame).
  unfold mret, cell_ret, ret. cbn [b_size].
  now rewrite take_ge by (now rewrite length_map, length_seq).
Qed.

Lemma peek_ok w b blk :
  v_data w = Some b -> heap w !! b_addr b = Some blk ->
  peek w = (Val (take (b_size b) blk), w).
Proof.
  intros Hd Hb. unfold peek.
  erewrite bind_val by (apply name_data_bound; exact Hd).
  now apply bytes_ok.
Qed.

Lemma address_ok w b : v_data w = Some b -> address w = (Val (b_addr b), w).
Proof.
  intros Hd. unfold address.
  now erewrite bind_val by (apply name_data_bound; exact Hd).
Qed.

(* --------------------------------------------------------------------- *)
(* The notebook on a concrete machine                                    *)
(* --------------------------------------------------------------------- *)

Example hex_of_bytes : bytes_hex [xfa; x2f; x53; xdd; x00; x0e] = "fa2f53dd000e".
Proof. reflexivity. Qed.

Example hex_of_address : HexString.of_Z 15263552 = "0xe8e740".
Proof. reflexivity. Qed.

Example notebook_load_displays_the_file :
  fst (notebook_load w_allocated) = Val (bytes_hex (token_bytes gen 32)).
Proof. vm_compute. reflexivity. Qed.

Example notebook_clear_displays_zeros :
  fst (notebook_clear w_loaded)
  = Val "0000000000000000000000000000000000000000000000000000000000000000".
Proof. vm_compute. reflexivity. Qed.

Example notebook_calls :
  trace (snd ((notebook_clear;; notebook_random gen) w_loaded))
  = [CFopen "data.txt" "rb"; CFread 1 32 1 1; CFclose 1;
     CMemset 1 0 32; CRandombytes 2 8].
Proof. vm_compute. reflexivity. Qed.

Example load_without_file_dies_in_fread :
  fst (notebook_load w_nofile) = Raise Segfault.
Proof. vm_compute. reflexivity. Qed.
(* --------------------------------------------------------------------- *)
(* Round trip                                                            *)
(* --------------------------------------------------------------------- *)

Lemma token_bytes_replay s : token_bytes (replay s) (length s) = s.
Proof.
  unfold token_bytes, replay. apply list_eq. intros i.
  rewrite list_lookup_fmap.
  destruct (decide (i < length s)%nat) as [Hi|Hi].
  - rewrite lookup_seq_lt by exact Hi. cbn.
    destruct (lookup_lt_is_Some_2 s i Hi) as [x Hx]. rewrite Hx.
    f_equal. now apply nth_lookup_Some with (d := x00) in Hx.
  - rewrite lookup_seq_ge by lia. cbn. symmetry. apply lookup_ge_None. lia.
Qed.

Lemma region_after_full_load n content blk :
  length blk = n -> (n <= length content)%nat ->
  region_after_load n content blk = take n content.
Proof.
  intros Hb Hc. unfold region_after_load.
  rewrite length_take_le by exact Hc.
  rewrite drop_ge by lia. apply app_nil_r.
Qed.

(** C1. Round trip: for every byte sequence, of length K say, the cell
    that writes the sequence to data.txt, then the allocation of a K-byte
    buffer, then the load through fopen/fread/fclose, leave a region
    whose K bytes, read back, are the sequence written, byte for byte and
    in the same order. *)
Theorem roundtrip_returns_written_bytes (secret : list byte) (w : World) :
  (length secret <= capacity w)%nat ->
  exists w',
    (cell_write (replay secret) (length secret);;
     cell_allocate (length secret);;
     cell_load (length secret);;
     peek) w = (Val secret, w').
Proof.
  intros Hc. set (K := length secret).
  unfold cell_write, py_write. rewrite bind_modify.
  unfold K at 1. rewrite token_bytes_replay.
  set (w1 := set_fs _ w).
  erewrite bind_val by (apply cell_allocate_ok; exact Hc).
  set (b := mkBuffer (next_block w1) K).
  assert (Hd : v_data (after_allocate K w1) = Some b) by apply after_allocate_data.
  assert (Hb : heap (after_allocate K w1) !! b_addr b = Some (replicate K x00))
    by apply after_allocate_block.
  assert (Hf : fs (after_allocate K w1) !! file = Some secret)
    by (rewrite after_allocate_fs; apply lookup_insert_eq).
  erewrite bind_val
    by (eapply cell_load_ok; [exact Hd | exact Hb | now rewrite length_replicate | exact Hf]).
  eexists.
  erewrite peek_ok; [| exact Hd | apply lookup_insert_eq].
  rewrite region_after_full_load by (rewrite ?length_replicate; unfold K; lia).
  cbn [b_size b]. rewrite take_take, Nat.min_id. now rewrite take_ge by (unfold K; lia).
Qed.

Lemma roundtrip_returns_written_bytes_witness :
  exists w',
    (cell_write (replay [xfa; x2f; x00; x53]) 4;;
     cell_allocate 4;; cell_load 4;; peek) (boot 16 0)
    = (Val [xfa; x2f; x00; x53], w').
Proof.
  apply (roundtrip_returns_written_bytes [xfa; x2f; x00; x53] (boot 16 0)).
  vm_compute. lia.
Defined.

(* --------------------------------------------------------------------- *)
(* The foreign calls of a load                                           *)
(* --------------------------------------------------------------------- *)

(** C2, as the claim states it, fails on the notebook: the read is not
    issued with element size 1 and count 32. Loading the 32-byte file into
    the 32-byte buffer does not leave the log open, read(_, 1, 32, _),
    close. *)
Lemma load_does_not_read_32_elements_of_size_1 :
  ~ (exists a h,
        trace (snd (notebook_load w_allocated))
        = [CFopen file mode; CFread a 1 32 h; CFclose h]).
Proof.
  intros (a & h & H). vm_compute in H. discriminate H.
Qed.

(** C2, amended. A load in a world where data is bound to a block of at
    least n bytes and data.txt exists makes exactly three foreign calls,
    in this order: fopen(file, mode); fread with the buffer's address,
    element size n, count 1 and the stream fopen returned; fclose of that
    stream. The stream is not NULL and is what fp ends up bound to. *)
Theorem load_makes_three_calls_in_order n w b blk content :
  v_data w = Some b ->
  heap w !! b_addr b = Some blk ->
  (n <= length blk)%nat ->
  fs w !! file = Some content ->
  exists h out w',
    cell_load n w = (Val out, w') /\
    h <> 0 /\
    v_fp w' = Some (Some h) /\
    trace w' = trace w ++ [CFopen file mode; CFread (addressof b) n 1 h; CFclose h].
Proof.
  intros Hd Hb Hl Hf. exists (next_stream w). do 2 eexists.
  split; [eapply cell_load_ok; [exact Hd | exact Hb | exact Hl | exact Hf]|].
  split; [apply next_stream_nonnull|]. split; reflexivity.
Qed.

Lemma load_makes_three_calls_in_order_witness :
  exists h out w',
    cell_load 32 w_allocated = (Val out, w') /\
    h <> 0 /\
    v_fp w' = Some (Some h) /\
    trace w' = trace w_allocated
               ++ [CFopen file mode; CFread (addressof (mkBuffer 1 32)) 32 1 h; CFclose h].
Proof.
  apply (load_makes_three_calls_in_order 32 w_allocated (mkBuffer 1 32)
           (replicate 32 x00) (token_bytes gen 32)).
  - vm_compute. reflexivity.
  - vm_compute. reflexivity.
  - vm_compute. lia.
  - vm_compute. reflexivity.
Defined.

(* --------------------------------------------------------------------- *)
(* Short files                                                           *)
(* --------------------------------------------------------------------- *)

(** C3, as the claim states it, fails on the notebook: loading a
    three-byte data.txt into the 32-byte buffer raises nothing. *)
Lemma short_file_load_raises_nothing :
  ~ (exists e w', notebook_load w_short = (Raise e, w')).
Proof.
  intros (e & w' & H). vm_compute in H. discriminate H.
Qed.

(** C3, amended. When data.txt is shorter than the n bytes asked for, and
    the region still holds the zeros of its allocation, the load runs to
    its end without raising: fread returns 0 complete elements, a result
    the cell drops. The bytes of the file sit at the start of the region
    and every byte after them is still zero. *)
Theorem short_file_load_is_silent_and_keeps_zero_tail n w b content :
  v_data w = Some b ->
  b_size b = n ->
  heap w !! b_addr b = Some (replicate n x00) ->
  fs w !! file = Some content ->
  (length content < n)%nat ->
  (exists out w',
      cell_load n w = (Val out, w') /\
      peek w' = (Val (content ++ replicate (n - length content) x00), w')) /\
  (forall h w0,
      streams w0 !! h = Some content ->
      heap w0 !! b_addr b = Some (replicate n x00) ->
      fst (fread b n 1 (Some h) w0) = Val 0%nat).
Proof.
  intros Hd Hs Hb Hf Hlt. split.
  - do 2 eexists. split.
    + eapply cell_load_ok; [exact Hd | exact Hb | now rewrite length_replicate | exact Hf].
    + erewrite peek_ok; [| exact Hd | apply lookup_insert_eq].
      unfold region_after_load. rewrite (take_ge content n) by lia.
      rewrite drop_replicate, Hs.
      rewrite take_ge; [reflexivity|].
      rewrite length_app, length_replicate. lia.
  - intros h w0 Hst Hb0.
    erewrite fread_open;
      [| exact Hst | exact Hb0 | rewrite length_replicate; lia].
    cbn [fst]. f_equal. rewrite Nat.mul_1_r. rewrite take_ge by lia.
    apply Nat.div_small. exact Hlt.
Qed.

Lemma short_file_load_is_silent_and_keeps_zero_tail_witness :
  (exists out w',
      cell_load 32 w_short = (Val out, w') /\
      peek w' = (Val ([x01; x02; x03] ++ replicate (32 - 3) x00), w')) /\
  (forall h w0,
      streams w0 !! h = Some [x01; x02; x03] ->
      heap w0 !! b_addr (mkBuffer 1 32) = Some (replicate 32 x00) ->
      fst (fread (mkBuffer 1 32) 32 1 (Some h) w0) = Val 0%nat).
Proof.
  apply (short_file_load_is_silent_and_keeps_zero_tail 32 w_short (mkBuffer 1 32)
           [x01; x02; x03]).
  - vm_compute. reflexivity.
  - reflexivity.
  - vm_compute. reflexivity.
  - vm_compute. reflexivity.
  - vm_compute. lia.
Defined.

(* --------------------------------------------------------------------- *)
(* Allocation                                                            *)
(* --------------------------------------------------------------------- *)

Lemma fits_ssize_t_spec n : fits_ssize_t n = true <-> Z.of_nat n < 2 ^ 63.
Proof. unfold fits_ssize_t. apply Z.ltb_lt. Qed.

Example allocate_on_a_full_machine :
  cell_allocate 32 (boot 16 0) = (Raise MemoryError, boot 16 0).
Proof. vm_compute. reflexivity. Qed.

Example allocate_beyond_ssize_t w :
  cell_allocate (2 ^ 63) w = (Raise OverflowError, w).
Proof.
  apply cell_allocate_overflow. unfold fits_ssize_t. apply Z.ltb_ge.
  rewrite Nat2Z.inj_pow. reflexivity.
Qed.

(** C4. For n > 0 and data not yet bound: when the allocator has n bytes
    left, the allocation cell binds data to a fresh block at a non-null
    address, of exactly n bytes, each of them zero. The cell fails with
    MemoryError exactly when the allocator is asked for the n bytes and
    reports failure, which it does exactly when it has fewer than n
    bytes left. The only other failure is the OverflowError of a size no
    ssize_t can hold, raised before the allocator is asked. A failure
    leaves the world as it was. *)
Theorem allocate_gives_n_zero_bytes_or_memory_error n w :
  (0 < n)%nat ->
  v_data w = None ->
  ((n <= capacity w)%nat ->
   exists b w',
     cell_allocate n w = (Val tt, w') /\
     v_data w' = Some b /\
     b_size b = n /\
     addressof b <> 0 /\
     heap w !! addressof b = None /\
     heap w' !! addressof b = Some (replicate n x00) /\
     length (replicate n x00) = n /\
     peek w' = (Val (replicate n x00), w')) /\
  ((exists w', cell_allocate n w = (Raise MemoryError, w')) <->
   (Z.of_nat n < 2 ^ 63 /\ exists w', alloc_zeroed n w = (Raise MemoryError, w'))) /\
  ((exists w', alloc_zeroed n w = (Raise MemoryError, w')) <-> (capacity w < n)%nat) /\
  (forall e w', cell_allocate n w = (Raise e, w') ->
     w' = w /\
     (e = MemoryError \/ e = OverflowError /\ 2 ^ 63 <= Z.of_nat n)).
Proof.
  intros Hn Hu.
  assert (Halloc : (exists w', alloc_zeroed n w = (Raise MemoryError, w'))
                   <-> (capacity w < n)%nat).
  { destruct (le_lt_dec n (capacity w)) as [Hc|Hc].
    - split; [|lia]. intros (w' & H).
      rewrite alloc_zeroed_ok in H by exact Hc. discriminate H.
    - split; [intros _; exact Hc|]. intros _. exists w. now apply alloc_zeroed_full. }
  split; [|split; [|split]].
  - intros Hc. exists (mkBuffer (next_block w) n), (after_allocate n w).
    split; [now apply cell_allocate_ok|].
    split; [apply after_allocate_data|]. split; [reflexivity|].
    split; [apply next_block_nonnull|].
    split; [apply next_block_unused|].
    split; [apply after_allocate_block|].
    split; [apply length_replicate|].
    erewrite peek_ok; [| apply after_allocate_data | apply after_allocate_block].
    cbn [b_size]. now rewrite take_ge by (now rewrite length_replicate).
  - destruct (fits_ssize_t n) eqn:Hf.
    + pose proof (proj1 (fits_ssize_t_spec n) Hf) as Hz.
      destruct (le_lt_dec n (capacity w)) as [Hc|Hc].
      * split.
        -- intros (w' & H). rewrite cell_allocate_ok in H by exact Hc. discriminate H.
        -- intros (_ & w' & H). rewrite alloc_zeroed_ok in H by exact Hc. discriminate H.
      * split.
        -- intros _. split; [exact Hz|]. exists w. now apply alloc_zeroed_full.
        -- intros _. exists w. now apply cell_allocate_full.
    + split.
      * intros (w' & H). rewrite cell_allocate_overflow in H by exact Hf. discriminate H.
      * intros (Hz & _). apply fits_ssize_t_spec in Hz. congruence.
  - exact Halloc.
  - intros e w' H. destruct (fits_ssize_t n) eqn:Hf.
    + destruct (le_lt_dec n (capacity w)) as [Hc|Hc].
      * rewrite cell_allocate_ok in H by exact Hc. discriminate H.
      * rewrite cell_allocate_full in H by assumption. inversion H. split; [reflexivity|now left].
    + rewrite cell_allocate_overflow in H by exact Hf. inversion H.
      split; [reflexivity|]. right. split; [reflexivity|].
      unfold fits_ssize_t in Hf. now apply Z.ltb_ge in Hf.
Qed.

Lemma allocate_gives_n_zero_bytes_or_memory_error_witness :
  (exists b w',
     cell_allocate 32 (boot 64 0) = (Val tt, w') /\
     v_data w' = Some b /\
     b_size b = 32%nat /\
     addressof b <> 0 /\
     heap (boot 64 0) !! addressof b = None /\
     heap w' !! addressof b = Some (replicate 32 x00) /\
     length (replicate 32 x00) = 32%nat /\
     peek w' = (Val (replicate 32 x00), w')) /\
  (exists w', cell_allocate 32 (boot 16 0) = (Raise MemoryError, w')).
Proof.
  split.
  - apply (allocate_gives_n_zero_bytes_or_memory_error 32 (boot 64 0)).
    + lia.
    + reflexivity.
    + vm_compute. lia.
  - apply (allocate_gives_n_zero_bytes_or_memory_error 32 (boot 16 0)).
    + lia.
    + reflexivity.
    + split; [lia|].
      apply (allocate_gives_n_zero_bytes_or_memory_error 32 (boot 16 0)).
      * lia.
      * reflexivity.
      * vm_compute. lia.
Defined.

(* --------------------------------------------------------------------- *)
(* Clearing                                                              *)
(* --------------------------------------------------------------------- *)

(** C5, as the claim states it, fails on the notebook: the random fill is
    not a way of clearing the region. Whatever the generator draws, the
    cell that calls randombytes leaves the loaded region as it was. *)
Lemma random_fill_leaves_the_region_alone :
  ~ (exists rnd,
        fst (peek (snd (notebook_random rnd w_loaded))) <> fst (peek w_loaded)).
Proof.
  intros (rnd & H). apply H. vm_compute. reflexivity.
Qed.

(** C5, amended. The region is cleared by the zero fill only: after the
    memset cell the n bytes read back are all zero. The random fill goes
    to a buffer of its own, freshly allocated, which then holds the m
    bytes drawn; the region bound to data keeps its contents, so there is
    no choice of policy for the region and no lifecycle state is kept. *)
Theorem clear_zero_fills_and_random_fill_is_elsewhere n w b blk :
  v_data w = Some b ->
  b_size b = n ->
  heap w !! b_addr b = Some blk ->
  length blk = n ->
  (exists out w',
      cell_clear n w = (Val out, w') /\
      peek w' = (Val (replicate n x00), w')) /\
  (forall rnd m, (m <= capacity w)%nat ->
     exists out w' bs,
       cell_random rnd m w = (Val out, w') /\
       peek w' = (Val blk, w') /\
       v_bs w' = Some bs /\
       b_addr bs <> b_addr b /\
       bytes bs w' = (Val (map rnd (seq 0 m)), w')).
Proof.
  intros Hd Hs Hb Hl. split.
  - do 2 eexists. split.
    + eapply cell_clear_ok; [exact Hd | exact Hb | lia].
    + erewrite peek_ok; [| exact Hd | apply lookup_insert_eq].
      rewrite drop_ge by lia. rewrite app_nil_r, Hs.
      now rewrite take_ge by (now rewrite length_replicate).
  - intros rnd m Hc.
    assert (Hne : next_block w <> b_addr b).
    { intros E. pose proof (next_block_unused w) as Hu. rewrite E, Hb in Hu. discriminate Hu. }
    exists (bytes_hex (map rnd (seq 0 m))), (after_random rnd m w), (mkBuffer (next_block w) m).
    split; [now apply cell_random_ok|].
    split.
    { assert (Hb' : heap (after_random rnd m w) !! b_addr b = Some blk)
        by (now apply after_random_keeps_data).
      assert (Hd' : v_data (after_random rnd m w) = Some b).
      { destruct (after_random_frame rnd m w) as (_ & _ & Hv & _). now rewrite Hv. }
      rewrite (peek_ok (after_random rnd m w) b blk Hd' Hb'). rewrite Hs.
      now rewrite take_ge by lia. }
    split; [apply after_random_frame|]. split; [exact Hne|].
    erewrite bytes_ok by apply after_random_frame.
    cbn [b_size]. now rewrite take_ge by (now rewrite length_map, length_seq).
Qed.

Lemma clear_zero_fills_and_random_fill_is_elsewhere_witness :
  (exists out w',
      cell_clear 32 w_loaded = (Val out, w') /\
      peek w' = (Val (replicate 32 x00), w')) /\
  (forall rnd m, (m <= capacity w_loaded)%nat ->
     exists out w' bs,
       cell_random rnd m w_loaded = (Val out, w') /\
       peek w' = (Val (token_bytes gen 32), w') /\
       v_bs w' = Some bs /\
       b_addr bs <> b_addr (mkBuffer 1 32) /\
       bytes bs w' = (Val (map rnd (seq 0 m)), w')).
Proof.
  apply (clear_zero_fills_and_random_fill_is_elsewhere 32 w_loaded (mkBuffer 1 32)
           (token_bytes gen 32)).
  - vm_compute. reflexivity.
  - reflexivity.
  - vm_compute. reflexivity.
  - vm_compute. reflexivity.
Defined.

(* --------------------------------------------------------------------- *)
(* Failing opens and closes                                              *)
(* --------------------------------------------------------------------- *)

(** C6, as the claim states it, fails on the notebook: when fopen
    returns NULL the cell does go on to the read, handing fread the NULL
    stream. *)
Lemma load_reads_from_the_null_stream :
  ~ (forall c, In c (trace (snd (notebook_load w_nofile))) ->
               forall p s k h, c <> CFread p s k h).
Proof.
  intros H. apply (H (CFread 1 32 1 0)) with (p := 1) (s := 32%nat) (k := 1%nat) (h := 0);
    [| reflexivity].
  vm_compute. right. left. reflexivity.
Qed.

Example empty_load_without_file_dies_in_fclose :
  let r := cell_load 0 (snd (cell_allocate 0 (boot 64 0))) in
  fst r = Raise Segfault /\
  trace (snd r) = [CFopen "data.txt" "rb"; CFread 1 0 1 0; CFclose 0].
Proof. vm_compute. split; reflexivity. Qed.

(** C6, amended. When data.txt cannot be opened, no Python exception is
    raised at the open: fp is bound to None and fread is called on the
    NULL stream. For n > 0 that kills the process inside fread and
    fclose is not reached; for n = 0 the empty read returns at once and
    the process dies inside fclose of the NULL stream. When the file is
    there and holds at least n bytes, the load runs to its end whatever
    status fclose reports (the status is dropped), and the n bytes read
    stay in the region. *)
Theorem load_ignores_open_and_close_status n w b blk :
  v_data w = Some b ->
  b_size b = n ->
  heap w !! b_addr b = Some blk ->
  length blk = n ->
  streams w !! 0 = None ->
  (fs w !! file = None ->
   exists w',
     cell_load n w = (Raise Segfault, w') /\
     v_fp w' = Some None /\
     trace w' = trace w ++ CFopen file mode :: CFread (addressof b) n 1 0
                             :: (if (n =? 0)%nat then [CFclose 0] else [])) /\
  (forall content,
     fs w !! file = Some content -> (n <= length content)%nat ->
     exists out w',
       cell_load n w = (Val out, w') /\
       fst (fclose (Some (next_stream w))
              (set_streams (fun t => <[next_stream w := content]> t) w))
       = Val (to_c_int (close_status w)) /\
       peek w' = (Val (take n content), w')).
Proof.
  intros Hd Hs Hb Hl H0. split.
  - intros Hf. destruct (n =? 0)%nat eqn:E.
    + apply Nat.eqb_eq in E. eexists. split; [|split].
      * unfold cell_load.
        erewrite bind_val by (apply fopen_missing; exact Hf).
        rewrite bind_modify.
        erewrite bind_val by (apply name_data_bound; exact Hd).
        erewrite bind_val by reflexivity.
        erewrite bind_val by (apply fread_empty; lia).
        erewrite bind_val by reflexivity.
        erewrite bind_raise by (apply fclose_null; exact H0).
        reflexivity.
      * reflexivity.
      * cbn [trace log set_fp to_void_p]. now rewrite <- !app_assoc.
    + apply Nat.eqb_neq in E. eexists. split; [|split].
      * unfold cell_load.
        erewrite bind_val by (apply fopen_missing; exact Hf).
        rewrite bind_modify.
        erewrite bind_val by (apply name_data_bound; exact Hd).
        erewrite bind_val by reflexivity.
        erewrite bind_raise by (apply fread_null; [lia | exact H0]).
        reflexivity.
      * reflexivity.
      * cbn [trace log set_fp]. now rewrite <- app_assoc.
  - intros content Hf Hc. do 2 eexists. split; [|split].
    + eapply cell_load_ok; [exact Hd | exact Hb | lia | exact Hf].
    + erewrite fclose_open by (cbn [streams set_streams]; apply lookup_insert_eq).
      reflexivity.
    + erewrite peek_ok; [| exact Hd | apply lookup_insert_eq].
      rewrite region_after_full_load by assumption.
      rewrite Hs, take_take, Nat.min_id. reflexivity.
Qed.

Lemma load_ignores_open_and_close_status_witness :
  (exists w',
     cell_load 32 w_nofile = (Raise Segfault, w') /\
     v_fp w' = Some None /\
     trace w' = trace w_nofile
                ++ CFopen file mode :: CFread (addressof (mkBuffer 1 32)) 32 1 0
                   :: (if (32 =? 0)%nat then [CFclose 0] else [])) /\
  (exists out w',
     cell_load 32 w_badclose = (Val out, w') /\
     fst (fclose (Some (next_stream w_badclose))
            (set_streams (fun t => <[next_stream w_badclose := token_bytes gen 32]> t)
               w_badclose))
     = Val (to_c_int (close_status w_badclose)) /\
     peek w' = (Val (take 32 (token_bytes gen 32)), w')).
Proof.
  split.
  - apply (load_ignores_open_and_close_status 32 w_nofile (mkBuffer 1 32)
             (replicate 32 x00)).
    + vm_compute. reflexivity.
    + reflexivity.
    + vm_compute. reflexivity.
    + vm_compute. reflexivity.
    + vm_compute. reflexivity.
    + vm_compute. reflexivity.
  - apply (load_ignores_open_and_close_status 32 w_badclose (mkBuffer 1 32)
             (replicate 32 x00)).
    + vm_compute. reflexivity.
    + reflexivity.
    + vm_compute. reflexivity.
    + vm_compute. reflexivity.
    + vm_compute. reflexivity.
    + vm_compute. reflexivity.
    + vm_compute. lia.
Defined.

(* --------------------------------------------------------------------- *)
(* Cells run before the allocation                                       *)
(* --------------------------------------------------------------------- *)

(** C7, as the claim states it, fails on the notebook: a load run before
    the allocation has already called fopen by the time it fails, so the
    log of foreign calls has grown. *)
Lemma load_before_allocate_calls_fopen :
  ~ (v_data w_written = None ->
     trace (snd (notebook_load w_written)) = trace w_written).
Proof.
  intros H. specialize (H eq_refl). vm_compute in H. discriminate H.
Qed.

(** C7, amended. While data is unbound: the load fails with NameError
    after fopen, and only fopen, has been called (no read, no close; the
    heap and the binding of data are as before); the address cell, the
    clear cell and a read of the region fail with NameError without any
    foreign call and leave the world as it was. The notebook has no
    release. *)
Theorem cells_before_allocate_raise_name_error n w :
  v_data w = None ->
  (exists w',
      cell_load n w = (Raise (NameError "data"), w') /\
      trace w' = trace w ++ [CFopen file mode] /\
      heap w' = heap w /\ v_data w' = None) /\
  cell_address w = (Raise (NameError "data"), w) /\
  cell_clear n w = (Raise (NameError "data"), w) /\
  peek w = (Raise (NameError "data"), w).
Proof.
  intros Hu. split; [|split; [|split]].
  - unfold cell_load. destruct (fs w !! file) as [content|] eqn:Hf.
    + eexists. split.
      * erewrite bind_val by (apply fopen_found; exact Hf).
        rewrite bind_modify.
        erewrite bind_raise by (apply name_data_unbound; exact Hu).
        reflexivity.
      * now split; [|split].
    + eexists. split.
      * erewrite bind_val by (apply fopen_missing; exact Hf).
        rewrite bind_modify.
        erewrite bind_raise by (apply name_data_unbound; exact Hu).
        reflexivity.
      * now split; [|split].
  - unfold cell_address. now erewrite bind_raise by (apply name_data_unbound; exact Hu).
  - unfold cell_clear. now erewrite bind_raise by (apply name_data_unbound; exact Hu).
  - unfold peek. now erewrite bind_raise by (apply name_data_unbound; exact Hu).
Qed.

Lemma cells_before_allocate_raise_name_error_witness :
  (exists w',
      cell_load 32 w_written = (Raise (NameError "data"), w') /\
      trace w' = trace w_written ++ [CFopen file mode] /\
      heap w' = heap w_written /\ v_data w' = None) /\
  cell_address w_written = (Raise (NameError "data"), w_written) /\
  cell_clear 32 w_written = (Raise (NameError "data"), w_written) /\
  peek w_written = (Raise (NameError "data"), w_written).
Proof.
  apply (cells_before_allocate_raise_name_error 32 w_written).
  vm_compute. reflexivity.
Defined.

(* --------------------------------------------------------------------- *)
(* Sequences of cells on an allocated region                             *)
(* --------------------------------------------------------------------- *)

Lemma length_region_after_load n content blk :
  length blk = n -> length (region_after_load n content blk) = n.
Proof.
  intros Hl. unfold region_after_load.
  rewrite length_app, length_drop, length_take. lia.
Qed.

Lemma run_op_keeps_region n a w op content :
  region n a w -> fs w !! file = Some content ->
  exists w', run_op n op w = (Val tt, w') /\ region n a w' /\ fs w' = fs w.
Proof.
  intros (Hd & blk & Hb & Hl) Hf. destruct op; cbn [run_op].
  - eexists. split; [|split].
    + erewrite bind_val; [reflexivity|].
      apply cell_load_ok with (content := content) (blk := blk);
        [exact Hd | exact Hb | lia | exact Hf].
    + split; [exact Hd|]. eexists. split; [apply lookup_insert_eq|].
      now apply length_region_after_load.
    + reflexivity.
  - exists w. split; [|split; [|reflexivity]].
    + unfold cell_address.
      erewrite bind_val; [reflexivity|].
      now erewrite bind_val by (apply name_data_bound; exact Hd).
    + split; [exact Hd|]. now exists blk.
  - eexists. split; [|split].
    + erewrite bind_val; [reflexivity|].
      apply cell_clear_ok with (blk := blk); [exact Hd | exact Hb | lia].
    + split; [exact Hd|]. eexists. split; [apply lookup_insert_eq|].
      rewrite length_app, length_replicate, length_drop. lia.
    + reflexivity.
Qed.

Lemma run_ops_keep_region n a ops : forall w content,
  region n a w -> fs w !! file = Some content ->
  exists w', run_ops n ops w = (Val tt, w') /\ region n a w' /\ fs w' = fs w.
Proof.
  induction ops as [|op ops IH]; intros w content Hr Hf; cbn [run_ops].
  - exists w. now split.
  - destruct (run_op_keeps_region n a w op content Hr Hf) as (w1 & H1 & Hr1 & Hf1).
    destruct (IH w1 content Hr1 (eq_trans (f_equal (fun m => m !! file) Hf1) Hf))
      as (w2 & H2 & Hr2 & Hf2).
    exists w2. split; [|split].
    + now erewrite bind_val by exact H1.
    + exact Hr2.
    + congruence.
Qed.

Lemma region_after_allocate n w : region n (next_block w) (after_allocate n w).
Proof.
  split; [apply after_allocate_data|]. exists (replicate n x00).
  split; [apply after_allocate_block | apply length_replicate].
Qed.

(** C8. For every n > 0 (with room for n bytes, and data.txt there for
    the loads to come): right after the allocation the address of the
    region is a non-zero integer, and after any sequence of load,
    address and clear cells it is still that integer; since this holds
    for every such sequence, it holds at every call along the way. The
    address cell hands it out in hexadecimal. Asking for the address
    leaves every world as it was. *)
Theorem address_is_nonzero_stable_and_pure n w ops content :
  (0 < n)%nat ->
  (n <= capacity w)%nat ->
  fs w !! file = Some content ->
  (exists a w1 w2,
      a <> 0 /\
      cell_allocate n w = (Val tt, w1) /\
      address w1 = (Val a, w1) /\
      run_ops n ops w1 = (Val tt, w2) /\
      address w2 = (Val a, w2) /\
      cell_address w2 = (Val (HexString.of_Z a), w2)) /\
  (forall w0, snd (address w0) = w0 /\ snd (cell_address w0) = w0).
Proof.
  intros Hn Hc Hf. split.
  - assert (Hf1 : fs (after_allocate n w) !! file = Some content)
      by (now rewrite after_allocate_fs).
    destruct (run_ops_keep_region n (next_block w) ops (after_allocate n w) content
                (region_after_allocate n w) Hf1) as (w2 & H2 & (Hd2 & _) & _).
    exists (next_block w), (after_allocate n w), w2.
    split; [apply next_block_nonnull|].
    split; [now apply cell_allocate_ok|].
    split; [exact (address_ok (after_allocate n w) (mkBuffer (next_block w) n)
                     (after_allocate_data n w))|].
    split; [exact H2|].
    split; [exact (address_ok w2 (mkBuffer (next_block w) n) Hd2)|].
    unfold cell_address. now erewrite bind_val by (apply name_data_bound; exact Hd2).
  - intros w0. unfold address, cell_address, mbind, cell_bind, bind, name_data.
    now destruct (v_data w0).
Qed.

Lemma address_is_nonzero_stable_and_pure_witness :
  (exists a w1 w2,
      a <> 0 /\
      cell_allocate 32 w_written = (Val tt, w1) /\
      address w1 = (Val a, w1) /\
      run_ops 32 [OAddress; OLoad; OAddress; OClear; OAddress] w1 = (Val tt, w2) /\
      address w2 = (Val a, w2) /\
      cell_address w2 = (Val (HexString.of_Z a), w2)) /\
  (forall w0, snd (address w0) = w0 /\ snd (cell_address w0) = w0).
Proof.
  apply (address_is_nonzero_stable_and_pure 32 w_written
           [OAddress; OLoad; OAddress; OClear; OAddress] (token_bytes gen 32)).
  - lia.
  - vm_compute. lia.
  - vm_compute. reflexivity.
Defined.

(** C9, as the claim states it, fails on the notebook: a region that has
    been loaded and then cleared can be loaded again. The second load is
    not turned down, and the region does not stay cleared: it holds the
    file's bytes once more. *)
Lemma load_after_clear_loads_again :
  ~ ((exists e w',
         (notebook_load;; notebook_clear;; notebook_load) w_allocated = (Raise e, w')) \/
     fst ((notebook_load;; notebook_clear;; notebook_load;; peek) w_allocated)
     = Val (replicate 32 x00)).
Proof.
  intros [(e & w' & H) | H]; vm_compute in H; discriminate H.
Qed.

(** C9, amended. The notebook keeps no lifecycle state and has no
    release. Once data is bound to an n-byte region and data.txt exists,
    load, address and clear cells run to their end in whatever order and
    number, on the same region; in particular a clear followed by another
    load fills the region with the file again (its first n bytes, zeros
    after them when the file is shorter). *)
Theorem cells_run_in_any_order_on_the_same_region n a w ops content :
  region n a w ->
  fs w !! file = Some content ->
  exists w',
    run_ops n ops w = (Val tt, w') /\
    region n a w' /\
    exists w'',
      (cell_clear n;; cell_load n;; peek) w'
      = (Val (take n content ++ replicate (n - length (take n content)) x00), w'').
Proof.
  intros Hr Hf.
  destruct (run_ops_keep_region n a ops w content Hr Hf) as (w1 & H1 & Hr1 & Hf1).
  exists w1. split; [exact H1|]. split; [exact Hr1|].
  destruct Hr1 as (Hd & blk & Hb & Hl).
  assert (Hf' : fs w1 !! file = Some content) by (now rewrite Hf1).
  erewrite bind_val
    by (apply cell_clear_ok with (blk := blk); [exact Hd | exact Hb | lia]).
  erewrite bind_val.
  2:{ eapply cell_load_ok.
      - exact Hd.
      - apply lookup_insert_eq.
      - rewrite length_app, length_replicate. lia.
      - exact Hf'. }
  eexists. erewrite peek_ok; [| exact Hd | apply lookup_insert_eq].
  cbn [b_size]. f_equal. f_equal.
  rewrite take_ge by (rewrite length_region_after_load;
                      [lia | rewrite length_app, length_replicate, length_drop; lia]).
  unfold region_after_load. f_equal.
  rewrite drop_ge with (l := blk) by lia. rewrite app_nil_r.
  apply drop_replicate.
Qed.

Lemma cells_run_in_any_order_on_the_same_region_witness :
  exists w',
    run_ops 32 [OClear; OLoad; OLoad; OClear] w_loaded = (Val tt, w') /\
    region 32 1 w' /\
    exists w'',
      (cell_clear 32;; cell_load 32;; peek) w'
      = (Val (take 32 (token_bytes gen 32)
              ++ replicate (32 - length (take 32 (token_bytes gen 32))) x00), w'').
Proof.
  apply (cells_run_in_any_order_on_the_same_region 32 1 w_loaded
           [OClear; OLoad; OLoad; OClear] (token_bytes gen 32)).
  - split; [vm_compute; reflexivity|].
    exists (token_bytes gen 32). split; vm_compute; reflexivity.
  - vm_compute. reflexivity.
Defined.

(* --------------------------------------------------------------------- *)
(* What a cleared region tells                                           *)
(* --------------------------------------------------------------------- *)

(** C10. Take any two machines whose data.txt hold whatever bytes, and a
    buffer size n both can allocate. Allocate, load, clear with the zero
    fill: on both machines the run reaches its end and the region read
    back is the same n zero bytes, whatever had been loaded. *)
Theorem cleared_region_is_the_same_whatever_was_loaded n w1 w2 c1 c2 :
  (n <= capacity w1)%nat ->
  (n <= capacity w2)%nat ->
  fs w1 !! file = Some c1 ->
  fs w2 !! file = Some c2 ->
  exists w1' w2',
    (cell_allocate n;; cell_load n;; cell_clear n;; peek) w1
    = (Val (replicate n x00), w1') /\
    (cell_allocate n;; cell_load n;; cell_clear n;; peek) w2
    = (Val (replicate n x00), w2').
Proof.
  assert (H : forall w c, (n <= capacity w)%nat -> fs w !! file = Some c ->
            exists w', (cell_allocate n;; cell_load n;; cell_clear n;; peek) w
                       = (Val (replicate n x00), w')).
  { intros w c Hc Hf.
    erewrite bind_val by (apply cell_allocate_ok; exact Hc).
    erewrite bind_val.
    2:{ eapply cell_load_ok.
        - apply after_allocate_data.
        - apply after_allocate_block.
        - now rewrite length_replicate.
        - rewrite after_allocate_fs. exact Hf. }
    erewrite bind_val.
    2:{ eapply cell_clear_ok.
        - exact (after_allocate_data n w).
        - apply lookup_insert_eq.
        - rewrite length_region_after_load; [lia | apply length_replicate]. }
    eexists.
    erewrite peek_ok; [| exact (after_allocate_data n w) | apply lookup_insert_eq].
    cbn [b_size]. f_equal. f_equal.
    rewrite drop_ge
      by (rewrite length_region_after_load; [lia | apply length_replicate]).
    rewrite app_nil_r. now rewrite take_ge by (now rewrite length_replicate). }
  intros Hc1 Hc2 Hf1 Hf2.
  destruct (H w1 c1 Hc1 Hf1) as (w1' & E1).
  destruct (H w2 c2 Hc2 Hf2) as (w2' & E2).
  now exists w1', w2'.
Qed.

Lemma cleared_region_is_the_same_whatever_was_loaded_witness :
  exists w1' w2',
    (cell_allocate 32;; cell_load 32;; cell_clear 32;; peek) w_written
    = (Val (replicate 32 x00), w1') /\
    (cell_allocate 32;; cell_load 32;; cell_clear 32;; peek)
      (snd (py_write file [x01; x02; x03] (boot 64 0)))
    = (Val (replicate 32 x00), w2').
Proof.
  apply (cleared_region_is_the_same_whatever_was_loaded 32 w_written
           (snd (py_write file [x01; x02; x03] (boot 64 0)))
           (token_bytes gen 32) [x01; x02; x03]).
  - vm_compute. lia.
  - vm_compute. lia.
  - vm_compute. reflexivity.
  - vm_compute. reflexivity.
Defined.

(* --------------------------------------------------------------------- *)
(* What no run of the cells changes                                      *)
(* --------------------------------------------------------------------- *)

Lemma steady_ret {A} (a : A) : steady (mret a : Cell A).
Proof. intros w. reflexivity. Qed.

Lemma steady_raise {A} (e : Failure) : steady (raise e : Cell A).
Proof. intros w. reflexivity. Qed.

Lemma steady_bind {A B} (m : Cell A) (k : A -> Cell B) :
  steady m -> (forall a, steady (k a)) -> steady (m ≫= k).
Proof.
  intros Hm Hk w. specialize (Hm w).
  unfold mbind, cell_bind, bind. destruct (m w) as [[a|e] w1]; cbn [snd] in *.
  - now rewrite Hk.
  - exact Hm.
Qed.

Lemma steady_same {A} (c : Cell A) : (forall w, snd (c w) = w) -> steady c.
Proof. intros H w. now rewrite H. Qed.

Lemma steady_log c : steady (modify (log c)).
Proof. intros w. reflexivity. Qed.

Lemma steady_set_fp h : steady (modify (set_fp h)).
Proof. intros w. reflexivity. Qed.

Lemma steady_assign_data b : steady (assign_data b).
Proof.
  intros w. unfold assign_data. cbn [snd].
  now destruct (drop_ref_frame (v_data w) (set_data b w)) as (-> & _).
Qed.

Lemma steady_assign_bs b : steady (assign_bs b).
Proof.
  intros w. unfold assign_bs. cbn [snd].
  now destruct (drop_ref_frame (v_bs w) (set_bs b w)) as (-> & _).
Qed.

Lemma steady_name_data : steady name_data.
Proof. apply steady_same. intros w. unfold name_data. now destruct (v_data w). Qed.

Lemma steady_name_fp : steady name_fp.
Proof. apply steady_same. intros w. unfold name_fp. now destruct (v_fp w). Qed.

Lemma steady_name_bs : steady name_bs.
Proof. apply steady_same. intros w. unfold name_bs. now destruct (v_bs w). Qed.

Lemma steady_bytes b : steady (bytes b).
Proof. apply steady_same. intros w. unfold bytes. now destruct (heap w !! b_addr b). Qed.

Lemma steady_store ptr bs : steady (store ptr bs).
Proof.
  intros w. unfold store.
  destruct (heap w !! ptr) as [blk|]; [|reflexivity].
  now destruct (length bs <=? length blk)%nat.
Qed.

Lemma steady_alloc_zeroed n : steady (alloc_zeroed n).
Proof. intros w. unfold alloc_zeroed. now destruct (n <=? capacity w)%nat. Qed.

Lemma steady_create_string_buffer n : steady (create_string_buffer n).
Proof.
  unfold create_string_buffer.
  destruct (fits_ssize_t n); [apply steady_alloc_zeroed | apply steady_raise].
Qed.

Lemma steady_ffi_new n : steady (ffi_new n).
Proof.
  unfold ffi_new.
  destruct (fits_ssize_t n); [apply steady_alloc_zeroed | apply steady_raise].
Qed.

Lemma steady_c_fopen path md : steady (c_fopen path md).
Proof.
  unfold c_fopen. apply steady_bind; [apply steady_log|]. intros _ w.
  destruct (bool_decide (md = "rb" ∨ md = "r")); [|reflexivity].
  now destruct (fs w !! path).
Qed.

Lemma steady_c_fread ptr size count stream : steady (c_fread ptr size count stream).
Proof.
  unfold c_fread. apply steady_bind; [apply steady_log|]. intros _.
  destruct (size * count =? 0)%nat; [apply steady_ret|].
  apply steady_bind.
  - intros w. now destruct (streams w !! stream).
  - intros rest. apply steady_bind; [apply steady_store|]. intros _.
    apply steady_bind; [intros w; reflexivity | intros _; apply steady_ret].
Qed.

Lemma steady_c_fclose stream : steady (c_fclose stream).
Proof.
  unfold c_fclose. apply steady_bind; [apply steady_log|]. intros _ w.
  now destruct (streams w !! stream).
Qed.

Lemma steady_c_memset ptr c n : steady (c_memset ptr c n).
Proof.
  unfold c_memset. apply steady_bind; [apply steady_log|]. intros _.
  apply steady_bind; [apply steady_store|]. intros _. apply steady_ret.
Qed.

Lemma steady_c_randombytes rnd ptr n : steady (c_randombytes rnd ptr n).
Proof.
  unfold c_randombytes. apply steady_bind; [apply steady_log|]. intros _.
  apply steady_store.
Qed.

Create HintDb steady.
#[local] Hint Resolve steady_ret steady_log steady_set_fp steady_assign_data steady_assign_bs
  steady_name_data steady_name_fp steady_name_bs steady_bytes steady_store
  steady_create_string_buffer steady_ffi_new steady_c_fopen steady_c_fread steady_c_fclose
  steady_c_memset steady_c_randombytes : steady.

Ltac steady_steps :=
  repeat first
    [ solve [auto with steady]
    | apply steady_bind; [| intros ?] ].

Lemma steady_cell_allocate n : steady (cell_allocate n).
Proof. unfold cell_allocate. steady_steps. Qed.

Lemma steady_cell_load n : steady (cell_load n).
Proof. unfold cell_load, fopen, fread, fclose. steady_steps. Qed.

Lemma steady_cell_address : steady cell_address.
Proof. unfold cell_address. steady_steps. Qed.

Lemma steady_cell_clear n : steady (cell_clear n).
Proof. unfold cell_clear, memset. steady_steps. Qed.

Lemma steady_cell_random rnd m : steady (cell_random rnd m).
Proof. unfold cell_random, randombytes. steady_steps. Qed.

Lemma steady_for_range body : (forall i, steady (body i)) ->
  forall k i0, steady (for_range k i0 body).
Proof.
  intros Hb. induction k as [|k IH]; intros i0; cbn [for_range].
  - apply steady_ret.
  - apply steady_bind; [apply Hb | intros _; apply IH].
Qed.

Lemma steady_cell_timing rnds iters m : steady (cell_timing rnds iters m).
Proof.
  unfold cell_timing. apply steady_for_range. intros i.
  unfold randombytes. steady_steps.
Qed.

Lemma steady_run_cmd c : steady (run_cmd c).
Proof.
  destruct c; cbn [run_cmd].
  - apply steady_cell_allocate.
  - apply steady_bind; [apply steady_cell_load | intros _; apply steady_ret].
  - apply steady_bind; [apply steady_cell_address | intros _; apply steady_ret].
  - apply steady_bind; [apply steady_cell_clear | intros _; apply steady_ret].
  - apply steady_bind; [apply steady_cell_random | intros _; apply steady_ret].
  - apply steady_cell_timing.
Qed.

Lemma steady_run_cmds cs : steady (run_cmds cs).
Proof.
  induction cs as [|c cs IH]; cbn [run_cmds].
  - apply steady_ret.
  - apply steady_bind; [apply steady_run_cmd | intros _; exact IH].
Qed.

(** X1. No run of the cells that follow the write, in whatever order and
    however it ends, changes a file: data.txt still holds the secret
    after the region has been wiped. *)
Theorem no_run_changes_the_files cs w :
  fs (snd (run_cmds cs w)) = fs w.
Proof. apply (steady_run_cmds cs w). Qed.

(* --------------------------------------------------------------------- *)
(* More on loading, clearing and allocating                              *)
(* --------------------------------------------------------------------- *)

(** X5. A load that runs to its end leaves no stream open and touches
    nothing but the region: the table of open streams, the files, the
    allocator and every other block are as before, and the region keeps
    its size. *)
Theorem load_closes_its_stream_and_touches_only_the_region n w b blk content :
  v_data w = Some b ->
  heap w !! b_addr b = Some blk ->
  (n <= length blk)%nat ->
  fs w !! file = Some content ->
  exists out w' blk',
    cell_load n w = (Val out, w') /\
    streams w' = streams w /\
    fs w' = fs w /\
    capacity w' = capacity w /\
    heap w' !! b_addr b = Some blk' /\
    length blk' = length blk /\
    (forall a, a <> b_addr b -> heap w' !! a = heap w !! a).
Proof.
  intros Hd Hb Hl Hf. do 3 eexists. split; [|split; [|split; [|split; [|split; [|split]]]]].
  - eapply cell_load_ok; [exact Hd | exact Hb | exact Hl | exact Hf].
  - reflexivity.
  - reflexivity.
  - reflexivity.
  - apply lookup_insert_eq.
  - unfold region_after_load. rewrite length_app, length_drop, length_take. lia.
  - intros a Ha. cbn [heap after_load]. now rewrite lookup_insert_ne by congruence.
Qed.

Lemma load_closes_its_stream_and_touches_only_the_region_witness :
  exists out w' blk',
    cell_load 32 w_allocated = (Val out, w') /\
    streams w' = streams w_allocated /\
    fs w' = fs w_allocated /\
    capacity w' = capacity w_allocated /\
    heap w' !! b_addr (mkBuffer 1 32) = Some blk' /\
    length blk' = length (replicate 32 x00) /\
    (forall a, a <> b_addr (mkBuffer 1 32) -> heap w' !! a = heap w_allocated !! a).
Proof.
  apply (load_closes_its_stream_and_touches_only_the_region 32 w_allocated
           (mkBuffer 1 32) (replicate 32 x00) (token_bytes gen 32)).
  - vm_compute. reflexivity.
  - vm_compute. reflexivity.
  - vm_compute. lia.
  - vm_compute. reflexivity.
Defined.

Lemma region_after_load_twice n content blk :
  region_after_load n content (region_after_load n content blk)
  = region_after_load n content blk.
Proof.
  unfold region_after_load. f_equal.
  rewrite drop_app_length. reflexivity.
Qed.

(** X6. Loading twice is loading once: each load opens the file anew and
    reads it from its first byte, so a second load leaves in the region
    exactly what the first left, whatever the length of the file. *)
Theorem load_twice_is_load_once n w b blk content :
  v_data w = Some b ->
  heap w !! b_addr b = Some blk ->
  (n <= length blk)%nat ->
  fs w !! file = Some content ->
  exists r w1 w2,
    (cell_load n;; peek) w = (Val r, w1) /\
    (cell_load n;; cell_load n;; peek) w = (Val r, w2).
Proof.
  intros Hd Hb Hl Hf.
  assert (Hl' : (n <= length (region_after_load n content blk))%nat).
  { unfold region_after_load. rewrite length_app, length_drop, length_take. lia. }
  do 3 eexists. split.
  - erewrite bind_val
      by (eapply cell_load_ok; [exact Hd | exact Hb | exact Hl | exact Hf]).
    eapply peek_ok; [exact Hd | apply lookup_insert_eq].
  - erewrite bind_val
      by (eapply cell_load_ok; [exact Hd | exact Hb | exact Hl | exact Hf]).
    erewrite bind_val
      by (eapply cell_load_ok; [exact Hd | apply lookup_insert_eq | exact Hl' | exact Hf]).
    erewrite peek_ok; [| exact Hd | apply lookup_insert_eq].
    now rewrite region_after_load_twice.
Qed.

Lemma load_twice_is_load_once_witness :
  exists r w1 w2,
    (cell_load 32;; peek) w_short = (Val r, w1) /\
    (cell_load 32;; cell_load 32;; peek) w_short = (Val r, w2).
Proof.
  apply (load_twice_is_load_once 32 w_short (mkBuffer 1 32) (replicate 32 x00)
           [x01; x02; x03]).
  - vm_compute. reflexivity.
  - vm_compute. reflexivity.
  - vm_compute. lia.
  - vm_compute. reflexivity.
Defined.

Lemma cell_load_unbound n w content :
  v_data w = None ->
  fs w !! file = Some content ->
  cell_load n w =
    (Raise (NameError "data"),
     set_fp (Some (next_stream w))
       (set_streams (fun t => <[next_stream w := content]> t) (log (CFopen file mode) w))).
Proof.
  intros Hu Hf. unfold cell_load.
  erewrite bind_val by (apply fopen_found; exact Hf).
  rewrite bind_modify.
  erewrite bind_raise by (apply name_data_unbound; exact Hu).
  reflexivity.
Qed.

(** X7. A load run before the allocation leaks its stream: fopen has
    opened data.txt, the NameError on data comes before fclose, and the
    stream, bound to fp, stays open on the whole file. *)
Theorem load_before_allocate_leaves_the_stream_open n w content :
  v_data w = None ->
  fs w !! file = Some content ->
  exists h w',
    cell_load n w = (Raise (NameError "data"), w') /\
    h <> 0 /\
    v_fp w' = Some (Some h) /\
    streams w !! h = None /\
    streams w' !! h = Some content.
Proof.
  intros Hu Hf. exists (next_stream w). eexists. split; [|split; [|split; [|split]]].
  - apply cell_load_unbound; [exact Hu | exact Hf].
  - apply next_stream_nonnull.
  - reflexivity.
  - apply next_stream_closed.
  - fields. apply lookup_insert_eq.
Qed.

Lemma load_before_allocate_leaves_the_stream_open_witness :
  exists h w',
    cell_load 32 w_written = (Raise (NameError "data"), w') /\
    h <> 0 /\
    v_fp w' = Some (Some h) /\
    streams w_written !! h = None /\
    streams w' !! h = Some (token_bytes gen 32).
Proof.
  apply (load_before_allocate_leaves_the_stream_open 32 w_written (token_bytes gen 32)).
  - vm_compute. reflexivity.
  - vm_compute. reflexivity.
Defined.

(** X8. Clearing twice: the second clear is accepted, calls memset once
    more on the same address, and leaves the n zero bytes of the first. *)
Theorem clear_twice_calls_memset_twice_and_stays_zero n w b blk :
  v_data w = Some b ->
  b_size b = n ->
  heap w !! b_addr b = Some blk ->
  length blk = n ->
  exists out w',
    (cell_clear n;; cell_clear n) w = (Val out, w') /\
    peek w' = (Val (replicate n x00), w') /\
    trace w' = trace w ++ [CMemset (addressof b) 0 n; CMemset (addressof b) 0 n].
Proof.
  intros Hd Hs Hb Hl. do 2 eexists. split; [|split].
  - erewrite bind_val
      by (eapply cell_clear_ok; [exact Hd | exact Hb | lia]).
    eapply cell_clear_ok; [exact Hd | apply lookup_insert_eq |].
    rewrite length_app, length_replicate. lia.
  - erewrite peek_ok; [| exact Hd | apply lookup_insert_eq].
    rewrite Hs. rewrite take_app_length' by (now rewrite length_replicate). reflexivity.
  - cbn [trace after_clear]. now rewrite <- app_assoc.
Qed.

Lemma clear_twice_calls_memset_twice_and_stays_zero_witness :
  exists out w',
    (cell_clear 32;; cell_clear 32) w_loaded = (Val out, w') /\
    peek w' = (Val (replicate 32 x00), w') /\
    trace w' = trace w_loaded
               ++ [CMemset (addressof (mkBuffer 1 32)) 0 32;
                   CMemset (addressof (mkBuffer 1 32)) 0 32].
Proof.
  apply (clear_twice_calls_memset_twice_and_stays_zero 32 w_loaded (mkBuffer 1 32)
           (token_bytes gen 32)).
  - vm_compute. reflexivity.
  - reflexivity.
  - vm_compute. reflexivity.
  - vm_compute. reflexivity.
Defined.

Lemma to_c_int_range z : - 2 ^ 31 <= to_c_int z < 2 ^ 31.
Proof.
  unfold to_c_int. pose proof (Z.mod_pos_bound (z + 2 ^ 31) (2 ^ 32) eq_refl). lia.
Qed.

Lemma to_c_int_fits z : to_c_int z = z <-> - 2 ^ 31 <= z < 2 ^ 31.
Proof.
  split.
  - intros <-. apply to_c_int_range.
  - intros H. unfold to_c_int. rewrite Z.mod_small by lia. lia.
Qed.

Lemma to_c_int_congruent z : (to_c_int z - z) mod 2 ^ 32 = 0.
Proof.
  unfold to_c_int.
  replace ((z + 2 ^ 31) mod 2 ^ 32 - 2 ^ 31 - z)
    with (- ((z + 2 ^ 31) / 2 ^ 32) * 2 ^ 32)
    by (pose proof (Z.div_mod (z + 2 ^ 31) (2 ^ 32)); lia).
  apply Z.mod_mul. lia.
Qed.

(** X9. What memset hands back to Python is not always the address:
    with only argtypes declared, the returned pointer comes back through
    the default c_int, that is its low 32 bits read as a signed integer.
    The result equals the buffer's address exactly when the address fits
    in a signed 32-bit integer. *)
Theorem memset_returns_the_address_cut_to_32_bits buf c n w blk :
  heap w !! b_addr buf = Some blk ->
  (n <= length blk)%nat ->
  exists r w',
    memset buf c n w = (Val r, w') /\
    - 2 ^ 31 <= r < 2 ^ 31 /\
    (r - addressof buf) mod 2 ^ 32 = 0 /\
    (r = addressof buf <-> - 2 ^ 31 <= addressof buf < 2 ^ 31).
Proof.
  intros Hb Hl. do 2 eexists. split; [|split; [|split]].
  - eapply memset_ok; [exact Hb | exact Hl].
  - apply to_c_int_range.
  - apply to_c_int_congruent.
  - apply to_c_int_fits.
Qed.

Lemma memset_returns_the_address_cut_to_32_bits_witness :
  exists r w',
    memset (mkBuffer (2 ^ 32 + 5) 4) 0 4
      (set_heap (fun h => <[2 ^ 32 + 5 := replicate 4 xff]> h) (boot 0 0)) = (Val r, w') /\
    - 2 ^ 31 <= r < 2 ^ 31 /\
    (r - addressof (mkBuffer (2 ^ 32 + 5) 4)) mod 2 ^ 32 = 0 /\
    (r = addressof (mkBuffer (2 ^ 32 + 5) 4)
     <-> - 2 ^ 31 <= addressof (mkBuffer (2 ^ 32 + 5) 4) < 2 ^ 31).
Proof.
  apply (memset_returns_the_address_cut_to_32_bits (mkBuffer (2 ^ 32 + 5) 4) 0 4
           (set_heap (fun h => <[2 ^ 32 + 5 := replicate 4 xff]> h) (boot 0 0))
           (replicate 4 xff)).
  - vm_compute. reflexivity.
  - vm_compute. lia.
Defined.

(** X10. Running the allocation cell again moves the region and frees
    the old one unwiped: data is rebound to a new block of n zero bytes
    at an address different from the one it had, no foreign call is made
    (so no memset passes over the old bytes), and the old block, to
    which no name refers any more, is freed at once: its address names
    no block afterwards and the allocator has its bytes back. *)
Theorem allocating_again_frees_the_old_region n w b blk :
  v_data w = Some b ->
  heap w !! b_addr b = Some blk ->
  (forall bs, v_bs w = Some bs -> b_addr bs <> b_addr b) ->
  (n <= capacity w)%nat ->
  exists b' w',
    cell_allocate n w = (Val tt, w') /\
    v_data w' = Some b' /\
    addressof b' <> addressof b /\
    peek w' = (Val (replicate n x00), w') /\
    heap w' !! b_addr b = None /\
    reserve w' = (capacity w - n + length blk)%nat /\
    trace w' = trace w.
Proof.
  intros Hd Hb Hbs Hc.
  assert (Hne : next_block w <> b_addr b).
  { intros E. pose proof (next_block_unused w) as Hu. rewrite E, Hb in Hu. discriminate Hu. }
  exists (mkBuffer (next_block w) n), (after_allocate n w).
  split; [now apply cell_allocate_ok|]. split; [apply after_allocate_data|].
  split; [exact Hne|]. split; [|split; [|split]].
  - erewrite peek_ok; [| apply after_allocate_data | apply after_allocate_block].
    cbn [b_size]. now rewrite take_ge by (now rewrite length_replicate).
  - unfold after_allocate. rewrite Hd. apply (drop_ref_gone b blk).
    + fields. now rewrite lookup_insert_ne by exact Hne.
    + unfold referenced. fields. cbn [b_addr].
      rewrite bool_decide_false by exact Hne.
      destruct (v_bs w) as [bs|] eqn:Hv; [|reflexivity].
      now rewrite bool_decide_false by (now apply Hbs).
  - unfold after_allocate. rewrite Hd.
    match goal with
    | |- reserve (drop_ref (Some b) ?x) = _ =>
        assert (Hg : reserve (drop_ref (Some b) x) = (capacity x + length blk)%nat)
    end.
    { apply (drop_ref_gone b blk).
      - fields. now rewrite lookup_insert_ne by exact Hne.
      - unfold referenced. fields. cbn [b_addr].
        rewrite bool_decide_false by exact Hne.
        destruct (v_bs w) as [bs|] eqn:Hv; [|reflexivity].
        now rewrite bool_decide_false by (now apply Hbs). }
    rewrite Hg. f_equal.
    match goal with
    | |- capacity ?x = _ => change x with (set_capacity (capacity w - n) x)
    end.
    apply capacity_set. pose proof (capacity_bound w). lia.
  - apply after_allocate_frame.
Qed.

Lemma allocating_again_frees_the_old_region_witness :
  exists b' w',
    cell_allocate 32 w_loaded = (Val tt, w') /\
    v_data w' = Some b' /\
    addressof b' <> addressof (mkBuffer 1 32) /\
    peek w' = (Val (replicate 32 x00), w') /\
    heap w' !! b_addr (mkBuffer 1 32) = None /\
    reserve w' = (capacity w_loaded - 32 + length (token_bytes gen 32))%nat /\
    trace w' = trace w_loaded.
Proof.
  apply (allocating_again_frees_the_old_region 32 w_loaded (mkBuffer 1 32)
           (token_bytes gen 32)).
  - vm_compute. reflexivity.
  - vm_compute. reflexivity.
  - intros bs H. vm_compute in H. discriminate H.
  - vm_compute. lia.
Defined.

(* --------------------------------------------------------------------- *)
(* What the cells display                                                *)
(* --------------------------------------------------------------------- *)

Lemma unhex_byte_hex b :
  unhex_byte (hex_digit (Byte.to_N b / 16)) (hex_digit (Byte.to_N b mod 16)) = Some b.
Proof. destruct b; reflexivity. Qed.

Lemma bytes_hex_length bs : String.length (bytes_hex bs) = (2 * length bs)%nat.
Proof.
  induction bs as [|b bs IH]; cbn [bytes_hex String.length length]; [reflexivity|].
  rewrite IH. lia.
Qed.

Lemma bytes_hex_inj : forall a b, bytes_hex a = bytes_hex b -> a = b.
Proof.
  induction a as [|x a IH]; intros [|y b] H; cbn [bytes_hex] in H;
    try reflexivity; try discriminate H.
  inversion H as [[H1 H2 H3]].
  assert (E : Some x = Some y).
  { rewrite <- (unhex_byte_hex x), <- (unhex_byte_hex y). now rewrite H1, H2. }
  inversion E. subst. f_equal. now apply IH.
Qed.

(** X11. The hexadecimal display of a byte string loses nothing: it has
    two digits for each byte, the display of a concatenation is the
    concatenation of the displays, and two byte strings are displayed
    alike only when they are equal. *)
Theorem bytes_hex_is_faithful (a b : list byte) :
  String.length (bytes_hex a) = (2 * length a)%nat /\
  bytes_hex (a ++ b) = (bytes_hex a ++ bytes_hex b)%string /\
  (bytes_hex a = bytes_hex b <-> a = b).
Proof.
  split; [apply bytes_hex_length|]. split.
  - induction a as [|x a IH]; cbn [bytes_hex app String.append]; [reflexivity|].
    now rewrite IH.
  - split; [apply bytes_hex_inj | now intros ->].
Qed.

(** X12. The address can be read back from what the address cell
    displays: the cell fails only when data is unbound, and otherwise the
    string it shows, parsed as hexadecimal, is the address of the
    region. *)
Theorem displayed_address_parses_back w :
  (v_data w = None /\ cell_address w = (Raise (NameError "data"), w)) \/
  (exists b s,
      v_data w = Some b /\
      cell_address w = (Val s, w) /\
      HexString.to_Z s = addressof b).
Proof.
  destruct (v_data w) as [b|] eqn:Hd.
  - right. exists b, (HexString.of_Z (addressof b)). split; [reflexivity|]. split.
    + unfold cell_address. now erewrite bind_val by (apply name_data_bound; exact Hd).
    + apply HexString.to_Z_of_Z.
  - left. split; [reflexivity|].
    unfold cell_address. now erewrite bind_raise by (apply name_data_unbound; exact Hd).
Qed.

(* --------------------------------------------------------------------- *)
(* Strings on their way to C                                             *)
(* --------------------------------------------------------------------- *)

Example file_reaches_c : c_char_p <$> encode_ascii "data.txt" = Some file.
Proof. reflexivity. Qed.

Example mode_reaches_c : c_char_p <$> encode_ascii "rb" = Some mode.
Proof. reflexivity. Qed.

Lemma byte_of_ascii_nul c : byte_of_ascii c = x00 -> nat_of_ascii c = 0%nat.
Proof.
  intros H. rewrite <- (ascii_of_byte_of_ascii c), H. reflexivity.
Qed.

Lemma c_char_p_cons c bs :
  nat_of_ascii c <> 0%nat ->
  c_char_p (byte_of_ascii c :: bs) = String c (c_char_p bs).
Proof.
  intros Hc. cbn [c_char_p].
  destruct (byte_of_ascii c) eqn:E;
    try (rewrite <- E, ascii_of_byte_of_ascii; reflexivity).
  exfalso. apply Hc. now apply byte_of_ascii_nul.
Qed.

(** X13. A string of ASCII characters other than NUL reaches the C side
    unchanged: encoding it as ASCII succeeds, gives one byte for each
    character, and the C string behind the c_char_p made from those bytes
    is the string itself. *)
Theorem ascii_string_reaches_c_unchanged (s : string) :
  (forall c, In c (list_ascii_of_string s) ->
             (0 < nat_of_ascii c < 128)%nat) ->
  exists bs,
    encode_ascii s = Some bs /\
    length bs = String.length s /\
    c_char_p bs = s.
Proof.
  induction s as [|c s IH]; intros H.
  - exists []. now split.
  - destruct IH as (bs & He & Hl & Hc).
    { intros c' Hin. apply H. now right. }
    assert (Hr : (0 < nat_of_ascii c < 128)%nat) by (apply H; now left).
    exists (byte_of_ascii c :: bs). cbn [encode_ascii].
    rewrite (proj2 (Nat.ltb_lt _ _) (proj2 Hr)), He.
    split; [reflexivity|]. split; [cbn; now rewrite Hl|].
    rewrite c_char_p_cons by lia. now rewrite Hc.
Qed.

Lemma ascii_string_reaches_c_unchanged_witness :
  exists bs,
    encode_ascii "data.txt" = Some bs /\
    length bs = String.length "data.txt" /\
    c_char_p bs = "data.txt".
Proof.
  apply (ascii_string_reaches_c_unchanged "data.txt").
  intros c Hin. cbn in Hin.
  repeat (destruct Hin as [<-|Hin]; [vm_compute; lia|]).
  destruct Hin.
Defined.

(** X14. A character beyond 127 anywhere in a string makes its ASCII
    encoding fail, whatever stands before and after it. *)
Theorem non_ascii_character_fails_the_encoding (s1 s2 : string) (c : ascii) :
  (128 <= nat_of_ascii c)%nat ->
  encode_ascii (s1 +:+ String c s2) = None.
Proof.
  intros Hc. induction s1 as [|d s1 IH].
  - change ("" +:+ String c s2) with (String c s2). cbn [encode_ascii].
    now rewrite (proj2 (Nat.ltb_ge _ _) Hc).
  - change (String d s1 +:+ String c s2) with (String d (s1 +:+ String c s2)).
    cbn [encode_ascii]. rewrite IH. now destruct (nat_of_ascii d <? 128)%nat.
Qed.

Lemma non_ascii_character_fails_the_encoding_witness :
  encode_ascii ("dat" +:+ String "233" ".txt") = None.
Proof.
  apply (non_ascii_character_fails_the_encoding "dat" ".txt" "233"%char).
  vm_compute. lia.
Defined.

Lemma ascii_string_plain_length s :
  (forall d, In d (list_ascii_of_string s) -> (nat_of_ascii d < 128)%nat) ->
  exists bs, encode_ascii s = Some bs /\ length bs = String.length s.
Proof.
  induction s as [|d s IH]; intros H.
  - now exists [].
  - destruct IH as (bs & He & Hl). { intros d' Hin. apply H. now right. }
    exists (byte_of_ascii d :: bs). cbn [encode_ascii].
    rewrite He, (proj2 (Nat.ltb_lt _ _) (H d (or_introl eq_refl))).
    split; [reflexivity | cbn; now rewrite Hl].
Qed.

(** X15. A NUL inside a string cuts the C string short: the encoding
    succeeds (NUL is ASCII), but behind the c_char_p the C side reads
    only what comes before the first NUL, so that is the path fopen would
    be given. *)
Theorem nul_cuts_the_c_string (s1 s2 : string) :
  (forall d, In d (list_ascii_of_string s1) -> (0 < nat_of_ascii d < 128)%nat) ->
  (forall d, In d (list_ascii_of_string s2) -> (nat_of_ascii d < 128)%nat) ->
  exists bs,
    encode_ascii (s1 +:+ String zero s2) = Some bs /\
    length bs = S (String.length s1 + String.length s2) /\
    c_char_p bs = s1.
Proof.
  intros H1 H2. induction s1 as [|d s1 IH].
  - change ("" +:+ String zero s2) with (String zero s2). cbn [encode_ascii].
    destruct (ascii_string_plain_length s2 H2) as (bs & He & Hl).
    exists (x00 :: bs). rewrite He. split; [reflexivity|]. split; [cbn; now rewrite Hl|].
    reflexivity.
  - destruct IH as (bs & He & Hl & Hc). { intros d' Hin. apply H1. now right. }
    assert (Hr : (0 < nat_of_ascii d < 128)%nat) by (apply H1; now left).
    change (String d s1 +:+ String zero s2) with (String d (s1 +:+ String zero s2)).
    exists (byte_of_ascii d :: bs). cbn [encode_ascii].
    rewrite (proj2 (Nat.ltb_lt _ _) (proj2 Hr)), He.
    split; [reflexivity|]. split; [cbn; now rewrite Hl|].
    rewrite c_char_p_cons by lia. now rewrite Hc.
Qed.

Lemma nul_cuts_the_c_string_witness :
  exists bs,
    encode_ascii ("data" +:+ String zero ".txt") = Some bs /\
    length bs = S (String.length "data" + String.length ".txt") /\
    c_char_p bs = "data".
Proof.
  apply (nul_cuts_the_c_string "data" ".txt").
  - intros c Hin. cbn in Hin.
    repeat (destruct Hin as [<-|Hin]; [vm_compute; lia|]).
    destruct Hin.
  - intros c Hin. cbn in Hin.
    repeat (destruct Hin as [<-|Hin]; [vm_compute; lia|]).
    destruct Hin.
Defined.

(* --------------------------------------------------------------------- *)
(* The loop around randombytes                                           *)
(* --------------------------------------------------------------------- *)

Lemma timing_step rnd bs m w blk :
  v_bs w = Some bs ->
  heap w !! b_addr bs = Some blk ->
  (m <= length blk)%nat ->
  (b ← name_bs; randombytes rnd b m) w =
    (Val tt,
     set_heap (fun h => <[b_addr bs := map rnd (seq 0 m) ++ drop m blk]> h)
       (log (CRandombytes (b_addr bs) m) w)).
Proof.
  intros Hv Hb Hl.
  erewrite bind_val by (unfold name_bs; rewrite Hv; reflexivity).
  now apply randombytes_ok.
Qed.

Lemma for_range_randombytes rnds bs m : forall k i0 w blk,
  v_bs w = Some bs ->
  heap w !! b_addr bs = Some blk ->
  length blk = m ->
  exists w',
    for_range k i0 (fun i => b ← name_bs; randombytes (rnds i) b m) w = (Val tt, w') /\
    v_bs w' = Some bs /\
    heap w' !! b_addr bs
    = Some (match k with O => blk | S j => map (rnds (i0 + j)%nat) (seq 0 m) end) /\
    trace w' = trace w ++ replicate k (CRandombytes (b_addr bs) m) /\
    capacity w' = capacity w /\
    dom (heap w') = dom (heap w) /\
    (forall a, a <> b_addr bs -> heap w' !! a = heap w !! a) /\
    v_data w' = v_data w /\ streams w' = streams w /\ fs w' = fs w.
Proof.
  induction k as [|k IH]; intros i0 w blk Hv Hb Hl.
  - exists w. cbn [for_range replicate]. rewrite app_nil_r. repeat split; auto.
  - cbn [for_range].
    set (w1 := set_heap (fun h => <[b_addr bs := map (rnds i0) (seq 0 m) ++ drop m blk]> h)
                 (log (CRandombytes (b_addr bs) m) w)).
    assert (Hstep : (b ← name_bs; randombytes (rnds i0) b m) w = (Val tt, w1))
      by (apply timing_step; [exact Hv | exact Hb | lia]).
    assert (Hb1 : heap w1 !! b_addr bs = Some (map (rnds i0) (seq 0 m))).
    { subst w1. fields. rewrite lookup_insert_eq. f_equal.
      rewrite drop_ge by lia. apply app_nil_r. }
    destruct (IH (S i0) w1 (map (rnds i0) (seq 0 m)) Hv Hb1)
      as (w' & Hrun & Hv' & Hb' & Ht' & Hc' & Hd' & Ho' & Hda' & Hs' & Hf').
    { now rewrite length_map, length_seq. }
    exists w'. split; [now erewrite bind_val by exact Hstep|].
    split; [exact Hv'|]. split.
    { rewrite Hb'. f_equal. destruct k as [|j]; [now rewrite Nat.add_0_r|].
      now replace (S i0 + j)%nat with (i0 + S j)%nat by lia. }
    split.
    { rewrite Ht'. subst w1. fields. now rewrite <- app_assoc. }
    split; [exact Hc'|]. split.
    { rewrite Hd'. subst w1. fields. apply dom_insert_lookup_L. now rewrite Hb. }
    split.
    { intros a Ha. rewrite Ho' by exact Ha. subst w1. fields.
      now rewrite lookup_insert_ne by congruence. }
    now split; [|split].
Qed.

(** X16. The loop around randombytes reuses one buffer: with bs bound to
    an m-byte block, k turns of the loop make exactly k calls to
    randombytes, all on the address of bs; nothing is allocated (the
    allocator's reserve and the set of blocks are as before), no other
    block is touched, and bs ends up holding the draw of the last turn,
    or what it held when k is 0. *)
Theorem timing_loop_reuses_one_buffer rnds k m w bs blk :
  v_bs w = Some bs ->
  b_size bs = m ->
  heap w !! b_addr bs = Some blk ->
  length blk = m ->
  exists w',
    cell_timing rnds k m w = (Val tt, w') /\
    trace w' = trace w ++ replicate k (CRandombytes (addressof bs) m) /\
    capacity w' = capacity w /\
    dom (heap w') = dom (heap w) /\
    (forall a, a <> addressof bs -> heap w' !! a = heap w !! a) /\
    v_bs w' = Some bs /\
    bytes bs w'
    = (Val (match k with O => blk | S j => map (rnds j) (seq 0 m) end), w').
Proof.
  intros Hv Hs Hb Hl.
  destruct (for_range_randombytes rnds bs m k 0%nat w blk Hv Hb Hl)
    as (w' & Hrun & Hv' & Hb' & Ht' & Hc' & Hd' & Ho' & _).
  exists w'. split; [exact Hrun|]. split; [exact Ht'|]. split; [exact Hc'|].
  split; [exact Hd'|]. split; [exact Ho'|]. split; [exact Hv'|].
  erewrite bytes_ok by exact Hb'. f_equal. f_equal. rewrite Hs.
  apply take_ge. destruct k; [lia | now rewrite length_map, length_seq].
Qed.

Lemma timing_loop_reuses_one_buffer_witness :
  exists w',
    cell_timing (fun i j => gen (i + j)) 5 8 (snd (notebook_random gen w_loaded))
    = (Val tt, w') /\
    trace w' = trace (snd (notebook_random gen w_loaded))
               ++ replicate 5 (CRandombytes (addressof (mkBuffer 2 8)) 8) /\
    capacity w' = capacity (snd (notebook_random gen w_loaded)) /\
    dom (heap w') = dom (heap (snd (notebook_random gen w_loaded))) /\
    (forall a, a <> addressof (mkBuffer 2 8) ->
               heap w' !! a = heap (snd (notebook_random gen w_loaded)) !! a) /\
    v_bs w' = Some (mkBuffer 2 8) /\
    bytes (mkBuffer 2 8) w'
    = (Val (map (fun j => gen (4 + j)) (seq 0 8)), w').
Proof.
  apply (timing_loop_reuses_one_buffer (fun i j => gen (i + j)) 5 8
           (snd (notebook_random gen w_loaded)) (mkBuffer 2 8) (map gen (seq 0 8))).
  - vm_compute. reflexivity.
  - reflexivity.
  - vm_compute. reflexivity.
  - vm_compute. reflexivity.
Defined.

(* --------------------------------------------------------------------- *)
(* The cells of the workflow in the notebook's order                     *)
(* --------------------------------------------------------------------- *)

(** X18. With the setup cells taken as run, the cells from the write of
    data.txt to the loop around randombytes, run once each in the
    notebook's order on a fresh machine with 40 bytes to allocate, all
    run to their end, whatever the generators draw, whatever close
    reports and however many turns k the loop makes: the load cell shows
    the 32 bytes written, the clear cell shows 32 zero bytes, the random
    cell shows its 8 draws; the foreign calls are fopen, fread, fclose,
    memset, randombytes and then the k randombytes of the loop, all of
    the randombytes on a buffer other than the region; at the end the
    region is all zero while data.txt still holds the secret. *)
Theorem workflow_cells_run_in_order rnd rnd' rnds k cap status :
  (40 <= cap)%nat ->
  exists a h a' w',
    (notebook_write rnd;; notebook_allocate;;
     shown ← notebook_load; logged ← cell_address;
     wiped ← notebook_clear; drawn ← notebook_random rnd';
     cell_timing rnds k 8;;
     mret (shown, logged, wiped, drawn)) (boot cap status)
    = (Val (bytes_hex (token_bytes rnd 32), HexString.of_Z a,
            bytes_hex (replicate 32 x00), bytes_hex (map rnd' (seq 0 8))), w') /\
    a <> 0 /\ h <> 0 /\ a' <> a /\
    trace w' = [CFopen file mode; CFread a 32 1 h; CFclose h;
                CMemset a 0 32; CRandombytes a' 8]
               ++ replicate k (CRandombytes a' 8) /\
    peek w' = (Val (replicate 32 x00), w') /\
    fs w' !! file = Some (token_bytes rnd 32).
Proof.
  intros Hcap.
  set (secret := token_bytes rnd 32).
  assert (Hsec : length secret = 32%nat)
    by (unfold secret, token_bytes; now rewrite length_map, length_seq).
  unfold notebook_write, notebook_allocate, notebook_load, notebook_clear,
    notebook_random, cell_write, py_write.
  rewrite bind_modify. fold secret.
  set (w1 := set_fs _ (boot cap status)).
  assert (Hc1 : (40 <= capacity w1)%nat).
  { unfold capacity, w1. cbn [reserve set_fs boot]. lia. }
  erewrite bind_val by (apply cell_allocate_ok; lia).
  set (w2 := after_allocate 32 w1).
  set (b := mkBuffer (next_block w1) 32).
  assert (Hd2 : v_data w2 = Some b) by apply after_allocate_data.
  assert (Hb2 : heap w2 !! b_addr b = Some (replicate 32 x00))
    by apply after_allocate_block.
  assert (Hf2 : fs w2 !! file = Some secret)
    by (unfold w2; rewrite after_allocate_fs; apply lookup_insert_eq).
  assert (Ht2 : trace w2 = []) by apply after_allocate_frame.
  assert (Hc2 : (8 <= capacity w2)%nat).
  { unfold w2, after_allocate.
    change (v_data w1) with (@None Buffer). cbn [drop_ref].
    unfold capacity at 1. cbn [reserve]. pose proof (capacity_bound w1). lia. }
  erewrite bind_val
    by (eapply cell_load_ok; [exact Hd2 | exact Hb2 | now rewrite length_replicate | exact Hf2]).
  rewrite region_after_full_load by (rewrite ?length_replicate; lia).
  rewrite (take_ge secret 32) by lia.
  set (w3 := after_load 32 b secret (replicate 32 x00) w2).
  assert (Hb3 : heap w3 !! b_addr b = Some secret).
  { unfold w3. cbn [heap after_load]. rewrite lookup_insert_eq.
    rewrite region_after_full_load by (rewrite ?length_replicate; lia).
    now rewrite take_ge by lia. }
  erewrite bind_val.
  2:{ unfold cell_address.
      erewrite bind_val by (apply name_data_bound; exact Hd2). reflexivity. }
  erewrite bind_val
    by (eapply cell_clear_ok; [exact Hd2 | exact Hb3 | lia]).
  rewrite (drop_ge secret 32) by lia. rewrite app_nil_r.
  set (w4 := after_clear 32 b secret w3).
  assert (Hb4 : heap w4 !! b_addr b = Some (replicate 32 x00)).
  { unfold w4. cbn [heap after_clear]. now rewrite lookup_insert_eq. }
  assert (Ht4 : trace w4 = [CFopen file mode; CFread (b_addr b) 32 1 (next_stream w2);
                            CFclose (next_stream w2); CMemset (b_addr b) 0 32]).
  { unfold w4, w3. cbn [trace after_clear after_load]. now rewrite Ht2. }
  erewrite bind_val by (apply cell_random_ok; exact Hc2).
  assert (Hne : next_block w4 <> b_addr b).
  { intros E. pose proof (next_block_unused w4) as Hu. rewrite E, Hb4 in Hu.
    discriminate Hu. }
  set (w5 := after_random rnd' 8 w4).
  set (bs := mkBuffer (next_block w4) 8).
  destruct (after_random_frame rnd' 8 w4) as (Hf5 & Ht5 & Hd5 & Hv5 & Hx5).
  fold w5 in Hf5, Ht5, Hd5, Hv5, Hx5.
  assert (Hb5 : heap w5 !! b_addr b = Some (replicate 32 x00))
    by (now apply after_random_keeps_data).
  destruct (for_range_randombytes rnds bs 8 k 0%nat w5 (map rnd' (seq 0 8)) Hv5 Hx5)
    as (w6 & Hrun & _ & _ & Ht6 & _ & _ & Ho6 & Hd6 & _ & Hf6).
  { now rewrite length_map, length_seq. }
  unfold cell_timing. erewrite bind_val by exact Hrun.
  exists (b_addr b), (next_stream w2), (next_block w4), w6.
  split.
  { unfold mret, cell_ret, ret. cbn [b_size b].
    rewrite (take_ge secret 32) by lia.
    now rewrite (take_ge (replicate 32 x00) 32) by (rewrite length_replicate; lia). }
  split; [apply next_block_nonnull|]. split; [apply next_stream_nonnull|].
  split; [exact Hne|]. split; [|split].
  - rewrite Ht6, Ht5, Ht4. now rewrite <- app_assoc.
  - assert (Hb6 : heap w6 !! b_addr b = Some (replicate 32 x00)).
    { rewrite Ho6; [exact Hb5|]. cbn [b_addr bs]. congruence. }
    assert (Hd6' : v_data w6 = Some b) by (now rewrite Hd6, Hd5).
    rewrite (peek_ok w6 b (replicate 32 x00) Hd6' Hb6).
    cbn [b_size b]. now rewrite take_ge by (rewrite length_replicate; lia).
  - rewrite Hf6, Hf5. exact Hf2.
Qed.

Lemma workflow_cells_run_in_order_witness :
  exists a h a' w',
    (notebook_write gen;; notebook_allocate;;
     shown ← notebook_load; logged ← cell_address;
     wiped ← notebook_clear; drawn ← notebook_random (replay [xc1; x6f; x99; x5e]);
     cell_timing (fun i j => gen (i + j)) 3 8;;
     mret (shown, logged, wiped, drawn)) (boot 64 EOF)
    = (Val (bytes_hex (token_bytes gen 32), HexString.of_Z a,
            bytes_hex (replicate 32 x00),
            bytes_hex (map (replay [xc1; x6f; x99; x5e]) (seq 0 8))), w') /\
    a <> 0 /\ h <> 0 /\ a' <> a /\
    trace w' = [CFopen file mode; CFread a 32 1 h; CFclose h;
                CMemset a 0 32; CRandombytes a' 8]
               ++ replicate 3 (CRandombytes a' 8) /\
    peek w' = (Val (replicate 32 x00), w') /\
    fs w' !! file = Some (token_bytes gen 32).
Proof.
  apply (workflow_cells_run_in_order gen (replay [xc1; x6f; x99; x5e])
           (fun i j => gen (i + j)) 3 64 EOF).
  lia.
Defined.
